(** * Modular binomials: a shallow embedding of [second_challenge.py]

    The solver recovers the two factors of [N = p * q] from
    [c1 = (2*p + 3*q)^e1 mod N] and [c2 = (5*p + 7*q)^e2 mod N].

    Python integers are unbounded, so they are modelled by [Z]; Python's
    [%] and [//] round towards minus infinity, exactly as [Z.modulo] and
    [Z.div] do, but raise [ZeroDivisionError] on a zero divisor.  Printing,
    exceptions and early [return] are threaded through a small monad. *)

From Equations Require Import Equations.
From Stdlib Require Import ZArith Zdivisibility Lia List String Ascii Bool.
From Stdlib Require Import Morphisms Setoid.
Import ListNotations.
Local Open Scope Z_scope.

(** ** Effects: output lines, exceptions, early return *)

(** The exceptions the program can meet.  All three are subclasses of
    Python's [Exception], so an [except Exception] clause catches each. *)
Inductive exn : Type :=
| Exception (msg : string)
| ZeroDivisionError
| ValueError.

(** One printed line; the interpolated value of an f-string is kept as data. *)
Inductive line : Type :=
| Text (s : string)
| TextZ (s : string) (z : Z)
| TextB (s : string) (b : bool)
| TextExn (s : string) (e : exn).

(** How a block of statements ends: it falls through with a value, it
    executes [return r], or it raises. *)
Inductive outcome (R A : Type) : Type :=
| Normal (a : A)
| Return (r : R)
| Raise (e : exn).
Arguments Normal {R A} a.
Arguments Return {R A} r.
Arguments Raise {R A} e.

(** A computation inside a function whose return type is [R]: what was
    printed, in order, and how the block ended. *)
Definition M (R A : Type) : Type := (list line * outcome R A)%type.

Definition ret {R A} (a : A) : M R A := ([], Normal a).

Definition bind {R A B} (m : M R A) (f : A -> M R B) : M R B :=
  match m with
  | (l, Normal a) => let (l', o) := f a in (l ++ l', o)
  | (l, Return r) => (l, Return r)
  | (l, Raise e) => (l, Raise e)
  end.

Definition print {R} (ln : line) : M R unit := ([ln], Normal tt).
Definition raise {R A} (e : exn) : M R A := ([], Raise e).
Definition return_ {R A} (r : R) : M R A := ([], Return r).

(** [try: body  except Exception as e: handler e]. *)
Definition try_except {R A} (body : M R A) (handler : exn -> M R A) : M R A :=
  match body with
  | (l, Raise e) => let (l', o) := handler e in (l ++ l', o)
  | other => other
  end.

(** Calling a function from inside another one: the callee's [return]
    becomes the value of the call, its exception propagates.  A function
    body that always ends in [return] or [raise] has result type
    [Empty_set]. *)
Definition call {R A} (body : M A Empty_set) : M R A :=
  match body with
  | (l, Normal v) => match v with end
  | (l, Return a) => (l, Normal a)
  | (l, Raise e) => (l, Raise e)
  end.

Declare Scope py_scope.
Delimit Scope py_scope with py.
Notation "x <- m ;; k" := (bind m (fun x => k))
  (at level 61, m at next level, right associativity) : py_scope.
Notation "' pat <- m ;; k" := (bind m (fun x => match x with pat => k end))
  (at level 61, pat pattern, m at next level, right associativity) : py_scope.
Notation "m ;; k" := (bind m (fun _ => k))
  (at level 61, right associativity) : py_scope.
Local Open Scope py_scope.

(** ** Built-in operations *)

Section Builtins.
Context {R : Type}.

(** [a % b] *)
Definition py_mod (a b : Z) : M R Z :=
  if b =? 0 then raise ZeroDivisionError else ret (a mod b).

(** [a // b] *)
Definition py_floordiv (a b : Z) : M R Z :=
  if b =? 0 then raise ZeroDivisionError else ret (a / b).
End Builtins.

(** ** [extended_gcd] *)

(** [def extended_gcd(a, b)]: no statement of it can raise ([b % a] and
    [b // a] are only reached with [a != 0]), so it is a plain function. *)
Equations extended_gcd (a b : Z) : Z * Z * Z by wf (Z.abs_nat a) lt :=
  extended_gcd a b with Z.eq_dec a 0 => {
    | left _ => (b, 0, 1)
    | right Hne =>
        let '(gcd, x, y) := extended_gcd (b mod a) a in
        (gcd, y - (b / a) * x, x) }.
Next Obligation.
  destruct (Z_lt_le_dec a 0).
  - pose proof (Z.mod_neg_bound b a ltac:(lia)). lia.
  - pose proof (Z.mod_pos_bound b a ltac:(lia)). lia.
Qed.

(** The same recursion with an explicit bound on the call depth; [None]
    means the bound was reached before the base case. *)
Fixpoint extended_gcd_fuel (fuel : nat) (a b : Z) : option (Z * Z * Z) :=
  match fuel with
  | O => None
  | S fuel' =>
      if a =? 0 then Some (b, 0, 1)
      else match extended_gcd_fuel fuel' (b mod a) a with
           | Some (gcd, x, y) => Some (gcd, y - (b / a) * x, x)
           | None => None
           end
  end.

(** ** [mod_inverse] *)

Definition no_inverse : exn := Exception "Modular inverse does not exist".

Definition mod_inverse (a m : Z) : M Z Empty_set :=
  let '(gcd, x, y) := extended_gcd a m in
  if negb (gcd =? 1) then raise no_inverse
  else (r <- py_mod x m ;; return_ r).

(** ** The built-in three-argument [pow] *)

Section Pow.
Context {R : Type}.

(** The inverse of [b] modulo [|m|] that [pow] uses for a negative
    exponent; only meaningful when [b] and [m] are coprime. *)
Definition pow_invmod (b m : Z) : Z :=
  let '(_, x, _) := extended_gcd (b mod Z.abs m) (Z.abs m) in x mod Z.abs m.

(** [pow(b, e, m)]: [ValueError] for a zero modulus, and for a negative
    exponent when the base is not invertible. *)
Definition py_pow (b e m : Z) : M R Z :=
  if m =? 0 then raise ValueError
  else if e <? 0 then
    if Z.gcd b m =? 1 then ret ((pow_invmod b m) ^ (- e) mod m)
    else raise ValueError
  else ret (b ^ e mod m).
End Pow.

(** ** [solve_for_primes] *)

(** The pair [(None, None)] is modelled by [None], a pair of integers
    [(p, q)] by [Some (p, q)]. *)
Abbreviation result := (option (Z * Z)).

Definition a1 : Z := 2.
Definition b1 : Z := 3.
Definition a2 : Z := 5.
Definition b2 : Z := 7.

(** Lines 59-60, the body of the first [try]: the two inverses, or the
    exception of the first failing [mod_inverse]. *)
Definition primary_inverses (N : Z) : M result (Z * Z) :=
  a1_inv <- call (mod_inverse a1 N) ;;
  a2_inv <- call (mod_inverse a2 N) ;;
  ret (a1_inv, a2_inv).

(** Step 2 (lines 69-87): the powers and the candidate
    [gcd((term1 - term2) % N, N)].  Yields
    [(c1_power, c2_power, q_candidate)]. *)
Definition primary_candidate (N e1 e2 c1 c2 a1_inv a2_inv : Z)
  : M result (Z * Z * Z) :=
  k2 <- py_mod (e2 * e1) (N - 1) ;;
  a2_neg_power <- py_pow a2_inv k2 N ;;
  k1 <- py_mod (e1 * e2) (N - 1) ;;
  a1_neg_power <- py_pow a1_inv k1 N ;;
  c2_power <- py_pow c2 e1 N ;;
  c1_power <- py_pow c1 e2 N ;;
  term1 <- py_mod (a2_neg_power * c2_power) N ;;
  term2 <- py_mod (a1_neg_power * c1_power) N ;;
  d <- py_mod (term1 - term2) N ;;
  ret (c1_power, c2_power, Z.gcd d N).

(** [q_candidate > 1 and N % q_candidate == 0]; [and] does not evaluate its
    right operand when the left one is false. *)
Definition candidate_divides (N cand : Z) : M result bool :=
  if 1 <? cand then (r <- py_mod N cand ;; ret (r =? 0)) else ret false.

(** Lines 90-112: accept the candidate as [q]. *)
Definition primary_stage (N e1 e2 c1 c2 q_candidate : Z) : M result unit :=
  ok <- candidate_divides N q_candidate ;;
  if ok then
    p_candidate <- py_floordiv N q_candidate ;;
    if p_candidate * q_candidate =? N then
      print (Text "Found factors:") ;;
      print (TextZ "p = " p_candidate) ;;
      print (TextZ "q = " q_candidate) ;;
      test_c1 <- py_pow (a1 * p_candidate + b1 * q_candidate) e1 N ;;
      test_c2 <- py_pow (a2 * p_candidate + b2 * q_candidate) e2 N ;;
      print (Text EmptyString) ;;
      print (Text "Verification:") ;;
      print (TextZ "Original c1: " c1) ;;
      print (TextZ "Computed c1: " test_c1) ;;
      print (TextB "Match: " (c1 =? test_c1)) ;;
      print (TextZ "Original c2: " c2) ;;
      print (TextZ "Computed c2: " test_c2) ;;
      print (TextB "Match: " (c2 =? test_c2)) ;;
      return_ (Some (p_candidate, q_candidate))
    else ret tt
  else ret tt.

(** Lines 115-123: the same candidate taken as [p]. *)
Definition swap_stage (N q_candidate : Z) : M result unit :=
  let p_candidate := q_candidate in
  q_candidate <- py_floordiv N p_candidate ;;
  if p_candidate * q_candidate =? N then
    print (Text "Found factors (after swap):") ;;
    print (TextZ "p = " p_candidate) ;;
    print (TextZ "q = " q_candidate) ;;
    return_ (Some (p_candidate, q_candidate))
  else ret tt.

(** Lines 129-148: the body of the second [try]. *)
Definition alternate_body (N e1 e2 c1_power c2_power : Z) : M result unit :=
  b1_inv <- call (mod_inverse b1 N) ;;
  b2_inv <- call (mod_inverse b2 N) ;;
  k2 <- py_mod (e2 * e1) (N - 1) ;;
  b2_neg_power <- py_pow b2_inv k2 N ;;
  k1 <- py_mod (e1 * e2) (N - 1) ;;
  b1_neg_power <- py_pow b1_inv k1 N ;;
  term1 <- py_mod (b2_neg_power * c2_power) N ;;
  term2 <- py_mod (b1_neg_power * c1_power) N ;;
  d <- py_mod (term1 - term2) N ;;
  let p_candidate := Z.gcd d N in
  ok <- candidate_divides N p_candidate ;;
  if ok then
    q_candidate <- py_floordiv N p_candidate ;;
    if p_candidate * q_candidate =? N then
      print (Text "Found factors (using b coefficients):") ;;
      print (TextZ "p = " p_candidate) ;;
      print (TextZ "q = " q_candidate) ;;
      return_ (Some (p_candidate, q_candidate))
    else ret tt
  else ret tt.

(** Lines 128-150: the guarded alternate-coefficient attempt. *)
Definition alternate_stage (N e1 e2 c1_power c2_power : Z) : M result unit :=
  try_except (alternate_body N e1 e2 c1_power c2_power)
    (fun e => print (TextExn "Error in alternative approach: " e)).

(** Lines 65-153: everything after the first [try] succeeded. *)
Definition solve_with_inverses (N e1 e2 c1 c2 a1_inv a2_inv : Z)
  : M result Empty_set :=
  '(c1_power, c2_power, q_candidate) <-
     primary_candidate N e1 e2 c1 c2 a1_inv a2_inv ;;
  primary_stage N e1 e2 c1 c2 q_candidate ;;
  swap_stage N q_candidate ;;
  alternate_stage N e1 e2 c1_power c2_power ;;
  print (Text "Could not find the factors with the given approach.") ;;
  return_ None.

(** Lines 58-63: the first [try]; its handler prints the error and
    returns [(None, None)]. *)
Definition guarded_inverses (N : Z) : M result (Z * Z) :=
  try_except (primary_inverses N)
    (fun e =>
       print (TextExn "Error calculating modular inverse: " e) ;;
       return_ None).

(** [def solve_for_primes(N, e1, e2, c1, c2)].  The handler of the first
    [try] returns, so the code after it runs only when both inverses were
    found. *)
Definition solve_for_primes (N e1 e2 c1 c2 : Z) : M result Empty_set :=
  print (Text "Solving for p and q using the modular binomial method...") ;;
  '(a1_inv, a2_inv) <- guarded_inverses N ;;
  solve_with_inverses N e1 e2 c1 c2 a1_inv a2_inv.

(** What the caller of [solve_for_primes] observes. *)
Definition returned (m : M result Empty_set) : outcome result Empty_set := snd m.
Definition output (m : M result Empty_set) : list line := fst m.

(** ** Printed reports

    The lines each accepting branch prints, for stating what the solver
    outputs. *)

Definition banner : line :=
  Text "Solving for p and q using the modular binomial method...".

(** Lines 95-110, with [t1], [t2] the recomputed ciphertexts. *)
Definition primary_report (c1 c2 p q t1 t2 : Z) : list line :=
  [ Text "Found factors:"; TextZ "p = " p; TextZ "q = " q;
    Text EmptyString; Text "Verification:";
    TextZ "Original c1: " c1; TextZ "Computed c1: " t1; TextB "Match: " (c1 =? t1);
    TextZ "Original c2: " c2; TextZ "Computed c2: " t2; TextB "Match: " (c2 =? t2) ].

(** Lines 119-121. *)
Definition swap_report (p q : Z) : list line :=
  [ Text "Found factors (after swap):"; TextZ "p = " p; TextZ "q = " q ].

(** Lines 144-146. *)
Definition alternate_report (p q : Z) : list line :=
  [ Text "Found factors (using b coefficients):"; TextZ "p = " p; TextZ "q = " q ].

(** ** Vocabulary for the statements *)

(** If the block [m] executes a [return], the returned value satisfies [P]. *)
Definition returns_only {R A} (P : R -> Prop) (m : M R A) : Prop :=
  forall l r, m = (l, Return r) -> P r.

(** [r] is the pair built by [mk] from the quotient [N / cand] and a
    candidate [cand] that passed [cand > 1 and N % cand == 0] and the
    product check. *)
Definition accepted_pair (N cand : Z) (mk : Z -> Z -> Z * Z) (r : result) : Prop :=
  exists quot c, r = Some (mk quot c) /\ c = cand /\ quot = N / cand /\
                 1 < cand /\ N mod cand = 0 /\ quot * cand = N.

(** [r] is [(None, None)] or a pair whose product is [N]. *)
Definition reconstructs (N : Z) (r : result) : Prop :=
  forall p q, r = Some (p, q) -> p * q = N.

(** The value of [q_candidate] at line 87 when no operation raises. *)
Definition q_candidate_value (N e1 e2 c1 c2 a1_inv a2_inv : Z) : Z :=
  let a2_neg_power := a2_inv ^ ((e2 * e1) mod (N - 1)) mod N in
  let a1_neg_power := a1_inv ^ ((e1 * e2) mod (N - 1)) mod N in
  let c2_power := c2 ^ e1 mod N in
  let c1_power := c1 ^ e2 mod N in
  let term1 := (a2_neg_power * c2_power) mod N in
  let term2 := (a1_neg_power * c1_power) mod N in
  Z.gcd ((term1 - term2) mod N) N.

(** The claim's side condition on a prime: coprime to 2, 3, 5 and 7. *)
Definition coprime_to_coefficients (p : Z) : Prop :=
  Z.gcd p a1 = 1 /\ Z.gcd p b1 = 1 /\ Z.gcd p a2 = 1 /\ Z.gcd p b2 = 1.

(** Congruence modulo [m]. *)
Definition cong (m a b : Z) : Prop := (m | a - b).

(** ** [read_values_from_file] and the main block

    A [str] is modelled by a [string], one [ascii] per character.  The
    built-ins [str.strip] and [int] are parameters: the functions below are
    the code around them.  A value of the dictionary is an [int] or a
    [str]; [dict.get] adds [None]. *)

Inductive pyval : Type :=
| PyNone
| PyInt (z : Z)
| PyStr (s : string).

(** A [dict] with [str] keys, the newest binding first. *)
Definition dict : Type := list (string * pyval).

(** [values[key] = v] *)
Definition dict_set (key : string) (v : pyval) (values : dict) : dict :=
  (key, v) :: values.

(** [values.get(key)] *)
Fixpoint dict_get (key : string) (values : dict) : pyval :=
  match values with
  | [] => PyNone
  | (k, v) :: rest => if String.eqb key k then v else dict_get key rest
  end.

(** [c in s] for a one-character [c]. *)
Fixpoint contains (c : ascii) (s : string) : bool :=
  match s with
  | EmptyString => false
  | String c' s' => Ascii.eqb c c' || contains c s'
  end.

(** [s.split(c, 1)] when it has two parts: the text before the first [c]
    and the text after it; [None] when [c] does not occur (one part). *)
Fixpoint split_once (c : ascii) (s : string) : option (string * string) :=
  match s with
  | EmptyString => None
  | String c' s' =>
      if Ascii.eqb c c' then Some (EmptyString, s')
      else match split_once c s' with
           | Some (before, after) => Some (String c' before, after)
           | None => None
           end
  end.

(** The outcome of an operation on the file system: a value,
    [FileNotFoundError], or another exception. *)
Inductive io (A : Type) : Type :=
| Done (a : A)
| NotFound
| Failed (e : exn).
Arguments Done {A} a.
Arguments NotFound {A}.
Arguments Failed {A} e.

(** One printed item of the main block: a line as before, or the line
    [Answer: p = ..., q = ...] with its leading empty line. *)
Inductive report : Type :=
| Line (ln : line)
| Answer (p q : Z).

Section ReadValues.
(** [s.strip()] and [int(s)], [None] standing for [ValueError]. *)
Variable strip : string -> string.
Variable int : string -> option Z.

(** Lines 8-18, the body of the loop.  Under [if '=' in line] the split
    has two parts, so the last branch of the [match] is never taken (lemma
    [split_once_contains]). *)
Definition store_line (values : dict) (line : string) : dict :=
  let line := strip line in
  if contains "=" line then
    match split_once "=" line with
    | Some (key, value) =>
        let key := strip key in
        let value := strip value in
        match int value with
        | Some z => dict_set key (PyInt z) values
        | None => dict_set key (PyStr value) values
        end
    | None => values
    end
  else values.

(** The key a line assigns, if it assigns one. *)
Definition line_key (line : string) : option string :=
  let line := strip line in
  if contains "=" line then
    match split_once "=" line with
    | Some (key, _) => Some (strip key)
    | None => None
    end
  else None.

(** Lines 5-18: the dictionary after the loop over the lines of the file. *)
Definition read_lines (lines : list string) : dict :=
  fold_left store_line lines [].

(** Line 20. *)
Definition read_values (lines : list string)
  : pyval * pyval * pyval * pyval * pyval :=
  let values := read_lines lines in
  (dict_get "N" values, dict_get "e1" values, dict_get "e2" values,
   dict_get "c1" values, dict_get "c2" values).

(** Opening [filename] and reading it to the end: its lines, or the
    exception raised on the way. *)
Variable open_read : string -> io (list string).

(** [def read_values_from_file(filename)]: nothing is caught, so an
    exception of the file system propagates. *)
Definition read_values_from_file (filename : string)
  : io (pyval * pyval * pyval * pyval * pyval) :=
  match open_read filename with
  | Done lines => Done (read_values lines)
  | NotFound => NotFound
  | Failed e => Failed e
  end.

(** What [solve_for_primes] does when some argument is a [str] (a
    non-numeric value in the file): outside the integer model. *)
Variable solve_on_text :
  pyval -> pyval -> pyval -> pyval -> pyval -> M result Empty_set.

(** The call at line 174: the integer solver when the five values are
    integers. *)
Definition solve_values (N e1 e2 c1 c2 : pyval) : M result Empty_set :=
  match N, e1, e2, c1, c2 with
  | PyInt N, PyInt e1, PyInt e2, PyInt c1, PyInt c2 =>
      solve_for_primes N e1 e2 c1 c2
  | _, _, _, _, _ => solve_on_text N e1 e2 c1 c2
  end.

(** Lines 159-162: [sys.argv[1]] when there is one, else the default. *)
Definition argument_filename (argv : list string) : string :=
  match argv with
  | _ :: arg :: _ => arg
  | _ => "data.txt"%string
  end.

(** [None in (N, e1, e2, c1, c2)] *)
Definition has_none (vs : list pyval) : bool :=
  existsb (fun v => match v with PyNone => true | _ => false end) vs.

(** Lines 156-185 for the argument list [argv]: what is printed, and the
    exit code ([sys.exit(1)] is not caught by [except Exception]; falling
    off the end exits with 0). *)
Definition main (argv : list string) : list report * Z :=
  let filename := argument_filename argv in
  let reading := Line (Text ("Reading values from file: " ++ filename)) in
  match read_values_from_file filename with
  | NotFound =>
      ([reading; Line (Text ("Error: File '" ++ filename ++ "' not found."))], 1)
  | Failed e => ([reading; Line (TextExn "Error: " e)], 1)
  | Done (N, e1, e2, c1, c2) =>
      if has_none [N; e1; e2; c1; c2] then
        ([reading;
          Line (Text "Error: Missing values in the file. Make sure the file contains N, e1, e2, c1, and c2.")],
         1)
      else
        match solve_values N e1 e2 c1 c2 with
        | (log, Return (Some (p, q))) =>
            if negb (p =? 0) && negb (q =? 0)
            then (reading :: map Line log ++ [Answer p q], 0)
            else (reading :: map Line log, 0)
        | (log, Return None) => (reading :: map Line log, 0)
        | (log, Raise e) =>
            (reading :: map Line log ++ [Line (TextExn "Error: " e)], 1)
        | (log, Normal v) => match v with end
        end
  end.
End ReadValues.

(** ** Instances of the built-ins for examples

    ASCII-only versions of [str.strip] and [int], used to run the readers
    on concrete files; the properties below hold for every choice of the
    two parameters. *)

Definition is_space (c : ascii) : bool :=
  existsb (Ascii.eqb c) [" "; "009"; "010"; "011"; "012"; "013"]%char.

Fixpoint lstrip (s : string) : string :=
  match s with
  | EmptyString => EmptyString
  | String c s' => if is_space c then lstrip s' else s
  end.

Fixpoint rstrip (s : string) : string :=
  match s with
  | EmptyString => EmptyString
  | String c s' =>
      match rstrip s' with
      | EmptyString => if is_space c then EmptyString else String c EmptyString
      | r => String c r
      end
  end.

Definition ascii_strip (s : string) : string := lstrip (rstrip s).

Fixpoint digits_value (acc : Z) (s : string) : option Z :=
  match s with
  | EmptyString => Some acc
  | String c s' =>
      let d := Z.of_nat (nat_of_ascii c) - 48 in
      if (0 <=? d) && (d <=? 9) then digits_value (10 * acc + d) s' else None
  end.

Definition decimal_int (s : string) : option Z :=
  match s with
  | EmptyString => None
  | String "-" (String c s') =>
      match digits_value 0 (String c s') with
      | Some z => Some (- z)
      | None => None
      end
  | _ => digits_value 0 s
  end.

(** A file system holding one file. *)
Definition one_file (name : string) (lines : list string) (filename : string)
  : io (list string) :=
  if String.eqb filename name then Done lines else NotFound.

(** * Properties *)

(** ** The monad and the built-ins *)

Lemma bind_ret_l {R A B} (a : A) (f : A -> M R B) : bind (ret a) f = f a.
Proof. unfold bind, ret. destruct (f a); reflexivity. Qed.

Lemma py_mod_ok {R} (a b : Z) : b <> 0 -> @py_mod R a b = ret (a mod b).
Proof. intros H. unfold py_mod. apply Z.eqb_neq in H. rewrite H. reflexivity. Qed.

Lemma py_floordiv_ok {R} (a b : Z) : b <> 0 -> @py_floordiv R a b = ret (a / b).
Proof. intros H. unfold py_floordiv. apply Z.eqb_neq in H. rewrite H. reflexivity. Qed.

Lemma py_pow_nonneg {R} (b e m : Z) :
  m <> 0 -> 0 <= e -> @py_pow R b e m = ret (b ^ e mod m).
Proof.
  intros Hm He. unfold py_pow.
  apply Z.eqb_neq in Hm. rewrite Hm.
  destruct (Z.ltb_spec e 0); [lia | reflexivity].
Qed.

(** ** [extended_gcd] *)

(** The defining equation, as the source reads. *)
Lemma extended_gcd_eq (a b : Z) :
  extended_gcd a b =
  if a =? 0 then (b, 0, 1)
  else let '(gcd, x, y) := extended_gcd (b mod a) a in (gcd, y - (b / a) * x, x).
Proof.
  rewrite extended_gcd_equation_1.
  destruct (Z.eq_dec a 0) as [->|Hne].
  - reflexivity.
  - rewrite extended_gcd_clause_1_equation_2.
    apply Z.eqb_neq in Hne. rewrite Hne. reflexivity.
Qed.

Lemma extended_gcd_0 (b : Z) : extended_gcd 0 b = (b, 0, 1).
Proof. rewrite extended_gcd_eq. reflexivity. Qed.

(** Bezout's identity holds for all integers. *)
Lemma extended_gcd_bezout (a b : Z) :
  forall g x y, extended_gcd a b = (g, x, y) -> a * x + b * y = g.
Proof.
  funelim (extended_gcd a b); intros g x y Hr.
  - injection Hr as <- <- <-. lia.
  - destruct (extended_gcd (b mod a) a) as [[g' x'] y'] eqn:Hrec.
    injection Hr as <- <- <-.
    specialize (H g' x' y' eq_refl).
    pose proof (Z.div_mod b a Hne). nia.
Qed.

(** On non-negative arguments the first component is the gcd. *)
Lemma extended_gcd_is_gcd (a b : Z) :
  0 <= a -> 0 <= b -> fst (fst (extended_gcd a b)) = Z.gcd a b.
Proof.
  funelim (extended_gcd a b); intros Ha Hb.
  - subst a. simpl. rewrite Z.abs_eq; trivial.
  - pose proof (Z.mod_pos_bound b a ltac:(lia)) as Hm.
    specialize (H ltac:(lia) Ha).
    destruct (extended_gcd (b mod a) a) as [[g' x'] y']. simpl in *.
    rewrite H. apply Z.gcd_mod. lia.
Qed.

(** On a negative first argument the first component is negative. *)
Lemma extended_gcd_neg (a b : Z) :
  a < 0 -> fst (fst (extended_gcd a b)) < 0.
Proof.
  funelim (extended_gcd a b); intros Ha.
  - lia.
  - pose proof (Z.mod_neg_bound b a ltac:(lia)) as Hm.
    destruct (Z.eq_dec (b mod a) 0) as [E|E].
    + rewrite E in *. rewrite extended_gcd_0. simpl. exact Ha.
    + specialize (H ltac:(lia)).
      destruct (extended_gcd (b mod a) a) as [[g' x'] y']. simpl in *. exact H.
Qed.

(** The argument of the recursive call is smaller in absolute value. *)
Lemma extended_gcd_decreases (a b : Z) :
  a <> 0 -> (Z.abs_nat (b mod a) < Z.abs_nat a)%nat.
Proof.
  intros Ha.
  destruct (Z_lt_le_dec a 0).
  - pose proof (Z.mod_neg_bound b a ltac:(lia)). lia.
  - pose proof (Z.mod_pos_bound b a ltac:(lia)). lia.
Qed.

(** Enough call depth reaches the base case, with the same triple. *)
Lemma extended_gcd_fuel_enough (fuel : nat) :
  forall a b, (Z.abs_nat a < fuel)%nat ->
              extended_gcd_fuel fuel a b = Some (extended_gcd a b).
Proof.
  induction fuel as [|fuel IH]; intros a b Hf; [lia|].
  simpl. rewrite extended_gcd_eq.
  destruct (Z.eqb_spec a 0) as [|Hne]; [reflexivity|].
  pose proof (extended_gcd_decreases a b Hne).
  rewrite IH by lia.
  destruct (extended_gcd (b mod a) a) as [[g x] y]. reflexivity.
Qed.

(** C6: on non-negative integers [extended_gcd a b] is a triple [(g, x, y)]
    with [g = gcd(a, b)] and [a*x + b*y = g]; for [a = 0] the triple is
    [(b, 0, 1)]. *)
Theorem extended_gcd_spec (a b : Z) :
  0 <= a -> 0 <= b ->
  (exists g x y, extended_gcd a b = (g, x, y) /\
                 g = Z.gcd a b /\ a * x + b * y = g) /\
  (a = 0 -> extended_gcd a b = (b, 0, 1)).
Proof.
  intros Ha Hb. split.
  - destruct (extended_gcd a b) as [[g x] y] eqn:E.
    exists g, x, y. split; [reflexivity|]. split.
    + pose proof (extended_gcd_is_gcd a b Ha Hb) as G.
      rewrite E in G. exact G.
    + exact (extended_gcd_bezout a b g x y E).
  - intros ->. apply extended_gcd_0.
Qed.

Lemma extended_gcd_spec_witness :
  (exists g x y, extended_gcd 240 46 = (g, x, y) /\
                 g = Z.gcd 240 46 /\ 240 * x + 46 * y = g) /\
  (240 = 0 -> extended_gcd 240 46 = (46, 0, 1)).
Proof. apply (extended_gcd_spec 240 46); lia. Defined.

(** ** [mod_inverse] *)

Lemma mod_inverse_coprime (a m : Z) :
  0 <= a -> 1 < m -> Z.gcd a m = 1 ->
  exists x, mod_inverse a m = return_ x /\ 0 <= x < m /\ (a * x) mod m = 1.
Proof.
  intros Ha Hm Hg. unfold mod_inverse.
  pose proof (extended_gcd_is_gcd a m Ha ltac:(lia)) as G.
  destruct (extended_gcd a m) as [[g x] y] eqn:E. simpl in G.
  pose proof (extended_gcd_bezout a m g x y E) as B.
  assert (g = 1) as -> by congruence.
  simpl. rewrite py_mod_ok by lia. rewrite bind_ret_l.
  exists (x mod m). split; [reflexivity|]. split.
  - apply Z.mod_pos_bound; lia.
  - rewrite Z.mul_mod_idemp_r by lia.
    replace (a * x) with (1 + (- y) * m) by lia.
    rewrite Z.mod_add by lia. apply Z.mod_small; lia.
Qed.

Lemma mod_inverse_not_coprime (a m : Z) :
  0 <= a -> 0 <= m -> Z.gcd a m <> 1 -> mod_inverse a m = raise no_inverse.
Proof.
  intros Ha Hm Hg. unfold mod_inverse.
  pose proof (extended_gcd_is_gcd a m Ha Hm) as G.
  destruct (extended_gcd a m) as [[g x] y]. simpl in G. subst g.
  apply Z.eqb_neq in Hg. rewrite Hg. reflexivity.
Qed.

(** A negative first argument always ends in the exception, whatever the
    gcd is. *)
Lemma mod_inverse_negative (a m : Z) :
  a < 0 -> mod_inverse a m = raise no_inverse.
Proof.
  intros Ha. unfold mod_inverse.
  pose proof (extended_gcd_neg a m Ha) as G.
  destruct (extended_gcd a m) as [[g x] y]. simpl in G.
  destruct (Z.eqb_spec g 1); [lia | reflexivity].
Qed.

(** C5, as stated, fails on a negative [a]: [-2] and [3] are coprime, yet
    [mod_inverse (-2) 3] raises. *)
Lemma mod_inverse_negative_counterexample :
  ~ (mod_inverse (-2) 3 = raise no_inverse <-> Z.gcd (-2) 3 <> 1).
Proof.
  intros [H _]. apply H; [|reflexivity].
  vm_compute. reflexivity.
Qed.

(** C5, amended: for [m > 1] and [a >= 0], [mod_inverse a m] raises exactly
    when [gcd(a, m) <> 1], and otherwise returns [x] with [0 <= x < m] and
    [(a * x) mod m = 1]. *)
Theorem mod_inverse_spec (a m : Z) :
  0 <= a -> 1 < m ->
  (mod_inverse a m = raise no_inverse <-> Z.gcd a m <> 1) /\
  (Z.gcd a m = 1 ->
   exists x, mod_inverse a m = return_ x /\ 0 <= x < m /\ (a * x) mod m = 1).
Proof.
  intros Ha Hm. split; [split|].
  - intros Hr Hg.
    destruct (mod_inverse_coprime a m Ha Hm Hg) as (x & Hx & _).
    rewrite Hx in Hr. discriminate Hr.
  - intros Hg. apply mod_inverse_not_coprime; lia.
  - intros Hg. apply mod_inverse_coprime; assumption.
Qed.

Lemma mod_inverse_spec_witness :
  (mod_inverse 5 3233 = raise no_inverse <-> Z.gcd 5 3233 <> 1) /\
  (Z.gcd 5 3233 = 1 ->
   exists x, mod_inverse 5 3233 = return_ x /\ 0 <= x < 3233 /\
             (5 * x) mod 3233 = 1).
Proof. apply (mod_inverse_spec 5 3233); lia. Defined.

(** A returned inverse certifies coprimality, for every modulus. *)
Lemma mod_inverse_return_gcd (a m x : Z) (l : list line) :
  mod_inverse a m = (l, Return x) -> Z.gcd a m = 1.
Proof.
  unfold mod_inverse.
  destruct (extended_gcd a m) as [[g u] v] eqn:E.
  pose proof (extended_gcd_bezout a m g u v E) as B.
  destruct (Z.eqb_spec g 1) as [->|]; simpl; [|discriminate].
  intros _. apply Z.bezout_1_gcd. exists u, v. lia.
Qed.

(** [mod_inverse] prints nothing. *)
Lemma mod_inverse_silent (a m : Z) : fst (mod_inverse a m) = [].
Proof.
  unfold mod_inverse.
  destruct (extended_gcd a m) as [[g u] v].
  destruct (negb (g =? 1)); [reflexivity|].
  unfold py_mod. destruct (m =? 0); reflexivity.
Qed.

(** ** Sequencing *)

Lemma bind_normal {R A B} (l : list line) (a : A) (f : A -> M R B) :
  bind (l, Normal a) f = (l ++ fst (f a), snd (f a)).
Proof. unfold bind. destruct (f a); reflexivity. Qed.

Lemma bind_return {R A B} (l : list line) (r : R) (f : A -> M R B) :
  bind (l, Return r) f = (l, Return r).
Proof. reflexivity. Qed.

Lemma bind_raise {R A B} (l : list line) (e : exn) (f : A -> M R B) :
  bind (l, Raise e) f = (l, Raise e).
Proof. reflexivity. Qed.

Lemma bind_print {R B} (ln : line) (k : unit -> M R B) :
  bind (print ln) k = (ln :: fst (k tt), snd (k tt)).
Proof. unfold print. rewrite bind_normal. reflexivity. Qed.

Lemma call_return {R A} (x : A) : @call R A (return_ x) = ret x.
Proof. reflexivity. Qed.

Lemma call_raise {R A} (e : exn) : @call R A (raise e) = raise e.
Proof. reflexivity. Qed.

(** A function body ends in [return] or in an exception. *)
Lemma body_cases {R} (m : M R Empty_set) :
  (exists l r, m = (l, Return r)) \/ (exists l e, m = (l, Raise e)).
Proof.
  destruct m as [l [v | r | e]].
  - destruct v.
  - left. eauto.
  - right. eauto.
Qed.

Lemma mod_inverse_cases (a m : Z) :
  (exists x, mod_inverse a m = return_ x) \/ (exists e, mod_inverse a m = raise e).
Proof.
  pose proof (mod_inverse_silent a m) as S.
  destruct (body_cases (mod_inverse a m)) as [(l & r & E) | (l & e & E)];
    rewrite E in S; simpl in S; subst l; [left | right]; eauto.
Qed.

Lemma py_pow_coprime {R} (b e m : Z) :
  m <> 0 -> Z.gcd b m = 1 -> exists v, @py_pow R b e m = ret v.
Proof.
  intros Hm Hg. unfold py_pow.
  apply Z.eqb_neq in Hm. rewrite Hm.
  rewrite Hg. simpl. destruct (e <? 0); eauto.
Qed.

(** ** The first [try] block *)

Lemma primary_inverses_return (N x2 x5 : Z) :
  mod_inverse a1 N = return_ x2 -> mod_inverse a2 N = return_ x5 ->
  primary_inverses N = ret (x2, x5).
Proof.
  intros H1 H2. unfold primary_inverses.
  rewrite H1, H2, !call_return, !bind_ret_l. reflexivity.
Qed.

Lemma primary_inverses_raise (N : Z) :
  (exists e, mod_inverse a1 N = raise e) \/ (exists e, mod_inverse a2 N = raise e) ->
  exists e, primary_inverses N = raise e.
Proof.
  intros H. unfold primary_inverses.
  destruct (mod_inverse_cases a1 N) as [[x1 E1] | [e E1]].
  - destruct H as [[e H] | [e H]]; [rewrite H in E1; discriminate E1|].
    rewrite E1, H, call_return, call_raise, bind_ret_l. exists e. reflexivity.
  - rewrite E1, call_raise. exists e. reflexivity.
Qed.

Lemma solve_for_primes_inverses (N e1 e2 c1 c2 x2 x5 : Z) :
  mod_inverse a1 N = return_ x2 -> mod_inverse a2 N = return_ x5 ->
  solve_for_primes N e1 e2 c1 c2 =
  (banner :: fst (solve_with_inverses N e1 e2 c1 c2 x2 x5),
   snd (solve_with_inverses N e1 e2 c1 c2 x2 x5)).
Proof.
  intros H1 H2. unfold solve_for_primes, guarded_inverses.
  rewrite (primary_inverses_return N x2 x5 H1 H2).
  rewrite bind_print. unfold try_except, ret.
  rewrite bind_normal. reflexivity.
Qed.

(** C4, as stated, fails: for the even modulus [10] the inverse of [2] does
    not exist; the alternate-coefficient stage run on the same data would
    find the pair [(10, 1)], but the solver prints the error and returns
    [(None, None)] at once. *)
Lemma no_inverse_skips_alternate_counterexample :
  mod_inverse a1 10 = raise no_inverse /\
  alternate_stage 10 1 1 (0 ^ 1 mod 10) (0 ^ 1 mod 10) =
    (alternate_report 10 1, Return (Some (10, 1))) /\
  solve_for_primes 10 1 1 0 0 =
    ([banner; TextExn "Error calculating modular inverse: " no_inverse],
     Return None).
Proof. repeat split; vm_compute; reflexivity. Qed.

(** The handler of the first [try]. *)
Lemma solve_for_primes_inverse_error (N e1 e2 c1 c2 : Z) :
  (exists e, mod_inverse a1 N = raise e) \/ (exists e, mod_inverse a2 N = raise e) ->
  exists e, solve_for_primes N e1 e2 c1 c2 =
            ([banner; TextExn "Error calculating modular inverse: " e], Return None).
Proof.
  intros H. destruct (primary_inverses_raise N H) as [e E].
  exists e. unfold solve_for_primes, guarded_inverses. rewrite E. reflexivity.
Qed.

(** C4, amended: when [mod_inverse] fails for [a1 = 2] or [a2 = 5], the
    handler of the first [try] prints the error and the solver returns
    [(None, None)] immediately, without running the swap or the alternate
    stage and without raising. *)
Theorem solve_for_primes_no_inverse (N e1 e2 c1 c2 : Z) :
  (exists e, mod_inverse a1 N = raise e) \/ (exists e, mod_inverse a2 N = raise e) ->
  exists e, solve_for_primes N e1 e2 c1 c2 =
            ([banner; TextExn "Error calculating modular inverse: " e], Return None).
Proof. apply solve_for_primes_inverse_error. Qed.

Lemma solve_for_primes_no_inverse_witness :
  exists e, solve_for_primes 10 1 1 0 0 =
            ([banner; TextExn "Error calculating modular inverse: " e], Return None).
Proof.
  apply (solve_for_primes_no_inverse 10 1 1 0 0).
  left. exists no_inverse. vm_compute. reflexivity.
Defined.

(** ** The three stages *)

Lemma primary_candidate_silent (N e1 e2 c1 c2 x2 x5 : Z) :
  fst (primary_candidate N e1 e2 c1 c2 x2 x5) = [].
Proof.
  unfold primary_candidate, py_mod, py_pow, bind, raise, ret.
  repeat match goal with
         | |- context [if ?c then _ else _] => destruct c
         end; reflexivity.
Qed.

(** A candidate is only produced for a non-zero modulus. *)
Lemma primary_candidate_modulus (N e1 e2 c1 c2 x2 x5 : Z) l v :
  primary_candidate N e1 e2 c1 c2 x2 x5 = (l, Normal v) -> N <> 0.
Proof.
  intros H ->. revert H. unfold primary_candidate.
  rewrite py_mod_ok by lia. rewrite bind_ret_l.
  unfold py_pow. simpl. discriminate.
Qed.

Lemma solve_with_inverses_candidate (N e1 e2 c1 c2 x2 x5 c1p c2p cand : Z) :
  primary_candidate N e1 e2 c1 c2 x2 x5 = ret (c1p, c2p, cand) ->
  solve_with_inverses N e1 e2 c1 c2 x2 x5 =
  (primary_stage N e1 e2 c1 c2 cand ;;
   swap_stage N cand ;;
   alternate_stage N e1 e2 c1p c2p ;;
   print (Text "Could not find the factors with the given approach.") ;;
   return_ None).
Proof.
  intros H. unfold solve_with_inverses. rewrite H, bind_ret_l. reflexivity.
Qed.

(** The primary stage accepts every candidate that passes the two tests,
    provided the two cross-check powers can be computed. *)
Lemma primary_stage_accepts (N e1 e2 c1 c2 cand t1 t2 : Z) :
  1 < cand -> N mod cand = 0 -> N / cand * cand = N ->
  py_pow (R := result) (a1 * (N / cand) + b1 * cand) e1 N = ret t1 ->
  py_pow (R := result) (a2 * (N / cand) + b2 * cand) e2 N = ret t2 ->
  primary_stage N e1 e2 c1 c2 cand =
  (primary_report c1 c2 (N / cand) cand t1 t2,
   Return (Some (N / cand, cand))).
Proof.
  intros Hc Hm Hp P1 P2. unfold primary_stage, candidate_divides.
  destruct (Z.ltb_spec 1 cand); [|lia].
  rewrite py_mod_ok by lia. rewrite !bind_ret_l.
  rewrite Hm. simpl (0 =? 0).  cbv iota.
  rewrite py_floordiv_ok by lia. rewrite bind_ret_l.
  rewrite Hp, Z.eqb_refl, P1, P2.
  reflexivity.
Qed.

(** A candidate that is not above 1 falls through the primary stage. *)
Lemma primary_stage_rejects (N e1 e2 c1 c2 cand : Z) :
  cand <= 1 -> primary_stage N e1 e2 c1 c2 cand = ret tt.
Proof.
  intros Hc. unfold primary_stage, candidate_divides.
  destruct (Z.ltb_spec 1 cand); [lia|].
  rewrite bind_ret_l. reflexivity.
Qed.

Lemma swap_stage_one (N : Z) :
  swap_stage N 1 = (swap_report 1 N, Return (Some (1, N))).
Proof.
  unfold swap_stage. rewrite py_floordiv_ok by lia. rewrite bind_ret_l.
  rewrite Z.div_1_r. rewrite Z.mul_1_l, Z.eqb_refl.
  reflexivity.
Qed.

(** ** What a block can return

    [returns_only P m]: if the block [m] executes a [return], the returned
    value satisfies [P].  The predicate is compositional, so a property of
    every [return] statement is checked statement by statement. *)

Section ReturnsOnly.
Context {R : Type} (P : R -> Prop).

Lemma returns_only_ret {A} (a : A) : returns_only P (ret a).
Proof. intros l r H. discriminate H. Qed.

Lemma returns_only_print (ln : line) : returns_only P (print ln).
Proof. intros l r H. discriminate H. Qed.

Lemma returns_only_raise {A} (e : exn) : returns_only P (@raise R A e).
Proof. intros l r H. discriminate H. Qed.

Lemma returns_only_return {A} (r : R) : P r -> returns_only P (@return_ R A r).
Proof. intros Hr l r' H. injection H as _ <-. exact Hr. Qed.

Lemma returns_only_bind {A B} (m : M R A) (f : A -> M R B) :
  returns_only P m -> (forall a, returns_only P (f a)) ->
  returns_only P (bind m f).
Proof.
  intros Hm Hf l r. destruct m as [l1 [a | r1 | e]]; simpl.
  - destruct (f a) as [l2 o] eqn:E. intros H. injection H as _ ->.
    exact (Hf a l2 r E).
  - intros H. injection H as _ <-. exact (Hm l1 r1 eq_refl).
  - discriminate.
Qed.

Lemma returns_only_try {A} (m : M R A) (h : exn -> M R A) :
  returns_only P m -> (forall e, returns_only P (h e)) ->
  returns_only P (try_except m h).
Proof.
  intros Hm Hh l r. destruct m as [l1 [a | r1 | e]]; simpl.
  - discriminate.
  - intros H. injection H as _ <-. exact (Hm l1 r1 eq_refl).
  - destruct (h e) as [l2 o] eqn:E. intros H. injection H as _ ->.
    exact (Hh e l2 r E).
Qed.

Lemma returns_only_call {A} (m : M A Empty_set) : returns_only P (@call R A m).
Proof. intros l r. destruct m as [l1 [[] | a | e]]; simpl; discriminate. Qed.

Lemma returns_only_py_mod (a b : Z) : returns_only P (py_mod a b).
Proof.
  unfold py_mod. destruct (b =? 0);
    [apply returns_only_raise | apply returns_only_ret].
Qed.

Lemma returns_only_py_floordiv (a b : Z) : returns_only P (py_floordiv a b).
Proof.
  unfold py_floordiv. destruct (b =? 0);
    [apply returns_only_raise | apply returns_only_ret].
Qed.

Lemma returns_only_py_pow (b e m : Z) : returns_only P (py_pow b e m).
Proof.
  unfold py_pow.
  destruct (m =? 0); [apply returns_only_raise|].
  destruct (e <? 0); [|apply returns_only_ret].
  destruct (Z.gcd b m =? 1); [apply returns_only_ret | apply returns_only_raise].
Qed.
End ReturnsOnly.

Create HintDb returns.

#[local] Hint Resolve returns_only_ret returns_only_print returns_only_raise
  returns_only_call returns_only_py_mod returns_only_py_floordiv
  returns_only_py_pow : returns.

(** One step through a block: split a sequence, or close a statement that
    cannot return. *)
Ltac returns_step :=
  first [ apply returns_only_bind; [| intro]
        | solve [auto with returns] ].

Lemma returns_only_primary_candidate (P : result -> Prop) N e1 e2 c1 c2 x2 x5 :
  returns_only P (primary_candidate N e1 e2 c1 c2 x2 x5).
Proof. unfold primary_candidate. repeat returns_step. Qed.

(** The pairs the primary stage can return. *)
Lemma primary_stage_returns (N e1 e2 c1 c2 cand : Z) :
  returns_only (accepted_pair N cand (fun p q => (p, q)))
    (primary_stage N e1 e2 c1 c2 cand).
Proof.
  unfold primary_stage, candidate_divides.
  destruct (Z.ltb_spec 1 cand) as [Hc|Hc];
    [|rewrite bind_ret_l; returns_step].
  rewrite py_mod_ok by lia. rewrite !bind_ret_l.
  destruct (Z.eqb_spec (N mod cand) 0) as [Hm|Hm]; [|returns_step].
  rewrite py_floordiv_ok by lia. rewrite bind_ret_l.
  destruct (Z.eqb_spec (N / cand * cand) N) as [Hp|Hp]; repeat returns_step.
  apply returns_only_return. exists (N / cand), cand. auto 6.
Qed.

(** The pairs the swap stage can return. *)
Lemma swap_stage_returns (N cand : Z) :
  returns_only (fun r => exists q, r = Some (cand, q) /\ cand * q = N)
    (swap_stage N cand).
Proof.
  unfold swap_stage. returns_step; [returns_step|].
  destruct (Z.eqb_spec (cand * a) N) as [Hp|Hp]; repeat returns_step.
  apply returns_only_return. eauto.
Qed.

(** The pairs the alternate stage can return: its own candidate, taken as
    [p]. *)
Lemma alternate_stage_returns (N e1 e2 c1p c2p : Z) :
  returns_only (fun r => exists cand, accepted_pair N cand (fun p q => (q, p)) r)
    (alternate_stage N e1 e2 c1p c2p).
Proof.
  unfold alternate_stage. apply returns_only_try; [|intro; returns_step].
  unfold alternate_body.
  repeat (apply returns_only_bind; [solve [auto with returns] | intro]).
  cbv zeta.
  set (cand := Z.gcd _ N). unfold candidate_divides.
  destruct (Z.ltb_spec 1 cand) as [Hc|Hc];
    [|rewrite bind_ret_l; returns_step].
  rewrite py_mod_ok by lia. rewrite !bind_ret_l.
  destruct (Z.eqb_spec (N mod cand) 0) as [Hm|Hm]; [|returns_step].
  rewrite py_floordiv_ok by lia. rewrite bind_ret_l.
  destruct (Z.eqb_spec (cand * (N / cand)) N) as [Hp|Hp]; repeat returns_step.
  apply returns_only_return. exists cand, (N / cand), cand.
  repeat split; auto; lia.
Qed.

Lemma returns_only_weaken {R A} (P Q : R -> Prop) (m : M R A) :
  (forall r, P r -> Q r) -> returns_only P m -> returns_only Q m.
Proof. intros HPQ Hm l r H. apply HPQ. exact (Hm l r H). Qed.

(** Every [return] statement of the solver: [(None, None)], or a pair
    whose product is [N]. *)
Lemma solve_for_primes_returns (N e1 e2 c1 c2 : Z) :
  returns_only (reconstructs N) (solve_for_primes N e1 e2 c1 c2).
Proof.
  unfold solve_for_primes, guarded_inverses.
  returns_step; [returns_step|].
  returns_step.
  { apply returns_only_try.
    - unfold primary_inverses. repeat returns_step.
    - intro e. returns_step; [returns_step|].
      apply returns_only_return. intros p q H. discriminate H. }
  destruct a0 as [x2 x5]. unfold solve_with_inverses.
  returns_step; [apply returns_only_primary_candidate|].
  destruct a0 as [[c1p c2p] cand].
  returns_step.
  { eapply returns_only_weaken; [|apply primary_stage_returns].
    intros r (quot & c & -> & -> & -> & _ & _ & Hp) p q H.
    injection H as <- <-. exact Hp. }
  returns_step.
  { eapply returns_only_weaken; [|apply swap_stage_returns].
    intros r (q' & -> & Hp) p q H. injection H as <- <-. exact Hp. }
  returns_step.
  { eapply returns_only_weaken; [|apply alternate_stage_returns].
    intros r (c' & quot & c & -> & -> & -> & _ & _ & Hp) p q H.
    injection H as <- <-. rewrite Z.mul_comm. exact Hp. }
  returns_step; [returns_step|].
  apply returns_only_return. intros p q H. discriminate H.
Qed.

(** C2: for [N > 1], whenever [solve_for_primes] returns a pair [(p, q)],
    from whichever stage, [p * q = N]. *)
Theorem returned_pair_product (N e1 e2 c1 c2 : Z) (l : list line) (p q : Z) :
  1 < N ->
  solve_for_primes N e1 e2 c1 c2 = (l, Return (Some (p, q))) ->
  p * q = N.
Proof.
  intros _ H.
  exact (solve_for_primes_returns N e1 e2 c1 c2 l (Some (p, q)) H p q eq_refl).
Qed.

Lemma returned_pair_product_witness : 61 * 53 = 3233.
Proof.
  apply (returned_pair_product 3233 1 1 281 676
           (banner :: primary_report 281 676 61 53 281 676) 61 53).
  - lia.
  - vm_compute. reflexivity.
Defined.

(** C3, as stated, fails: for [N = 143 = 11 * 13], [e1 = 5], [e2 = 1] and
    the ciphertexts built from [11] and [13], the candidate is [N] itself
    and the returned pair is [(1, 143)]. *)
Lemma trivial_pair_counterexample :
  ~ (forall N e1 e2 c1 c2 l p q,
        1 < N ->
        solve_for_primes N e1 e2 c1 c2 = (l, Return (Some (p, q))) ->
        1 < p < N /\ 1 < q < N).
Proof.
  intros H.
  assert (E : solve_for_primes 143 5 1
                ((2 * 11 + 3 * 13) ^ 5 mod 143) ((5 * 11 + 7 * 13) ^ 1 mod 143)
              = (banner :: primary_report 120 3 1 143 32 5, Return (Some (1, 143))))
    by (vm_compute; reflexivity).
  specialize (H 143 _ _ _ _ _ _ _ ltac:(lia) E). lia.
Qed.

(** C3, amended: for [N > 0] the primary stage accepts its candidate, and
    the alternate stage its own, only when the candidate is above 1 and
    divides [N], that is when [1 < candidate <= N], [N] itself included;
    the pair returned there is the candidate (as [q], resp. as [p]) and the
    positive quotient [N / candidate]. *)
Theorem candidate_acceptance (N : Z) :
  0 < N ->
  (forall e1 e2 c1 c2 cand l p q,
      primary_stage N e1 e2 c1 c2 cand = (l, Return (Some (p, q))) ->
      q = cand /\ p = N / cand /\ 1 < cand <= N /\ N mod cand = 0 /\
      0 < p /\ p * q = N) /\
  (forall e1 e2 c1p c2p l p q,
      alternate_stage N e1 e2 c1p c2p = (l, Return (Some (p, q))) ->
      q = N / p /\ 1 < p <= N /\ N mod p = 0 /\ 0 < q /\ p * q = N).
Proof.
  intros HN. split.
  - intros e1 e2 c1 c2 cand l p q H.
    destruct (primary_stage_returns N e1 e2 c1 c2 cand l _ H)
      as (quot & c & E & -> & -> & Hc & Hm & Hp).
    injection E as -> ->.
    assert (0 < N / cand) by nia.
    assert (cand <= N) by nia.
    repeat split; auto; lia.
  - intros e1 e2 c1p c2p l p q H.
    destruct (alternate_stage_returns N e1 e2 c1p c2p l _ H)
      as (cand & quot & c & E & -> & -> & Hc & Hm & Hp).
    injection E as -> ->.
    assert (0 < N / cand) by nia.
    assert (cand <= N) by nia.
    repeat split; auto; lia.
Qed.

Lemma candidate_acceptance_witness :
  143 = 143 /\ 1 = 143 / 143 /\ 1 < 143 <= 143 /\ 143 mod 143 = 0 /\
  0 < 1 /\ 1 * 143 = 143.
Proof.
  refine (proj1 (candidate_acceptance 143 _) 5 1 120 3 143
            (primary_report 120 3 1 143 32 5) 1 143 _).
  - lia.
  - vm_compute. reflexivity.
Defined.

(** ** The solver on a given candidate *)

Lemma solve_accepts_candidate (N e1 e2 c1 c2 x2 x5 c1p c2p cand t1 t2 : Z) :
  mod_inverse a1 N = return_ x2 -> mod_inverse a2 N = return_ x5 ->
  primary_candidate N e1 e2 c1 c2 x2 x5 = ret (c1p, c2p, cand) ->
  1 < cand -> N mod cand = 0 -> N / cand * cand = N ->
  py_pow (R := result) (a1 * (N / cand) + b1 * cand) e1 N = ret t1 ->
  py_pow (R := result) (a2 * (N / cand) + b2 * cand) e2 N = ret t2 ->
  solve_for_primes N e1 e2 c1 c2 =
  (banner :: primary_report c1 c2 (N / cand) cand t1 t2,
   Return (Some (N / cand, cand))).
Proof.
  intros H1 H2 Hc Hgt Hm Hp P1 P2.
  rewrite (solve_for_primes_inverses N e1 e2 c1 c2 x2 x5 H1 H2).
  rewrite (solve_with_inverses_candidate _ _ _ _ _ _ _ _ _ _ Hc).
  rewrite (primary_stage_accepts N e1 e2 c1 c2 cand _ _ Hgt Hm Hp P1 P2).
  reflexivity.
Qed.

Lemma solve_swaps_unit (N e1 e2 c1 c2 x2 x5 c1p c2p : Z) :
  mod_inverse a1 N = return_ x2 -> mod_inverse a2 N = return_ x5 ->
  primary_candidate N e1 e2 c1 c2 x2 x5 = ret (c1p, c2p, 1) ->
  solve_for_primes N e1 e2 c1 c2 =
  (banner :: swap_report 1 N, Return (Some (1, N))).
Proof.
  intros H1 H2 Hc.
  rewrite (solve_for_primes_inverses N e1 e2 c1 c2 x2 x5 H1 H2).
  rewrite (solve_with_inverses_candidate _ _ _ _ _ _ _ _ _ _ Hc).
  rewrite primary_stage_rejects by lia. rewrite bind_ret_l.
  rewrite swap_stage_one. reflexivity.
Qed.

(** C7: a primary-stage candidate above 1 that divides [N] and
    reconstructs it is returned as [(N / candidate, candidate)]; the
    recomputed ciphertexts only appear in the printed [Match:] lines,
    whatever their values. *)
Theorem primary_candidate_returned (N e1 e2 c1 c2 x2 x5 c1p c2p cand : Z) :
  0 <= e1 -> 0 <= e2 ->
  mod_inverse a1 N = return_ x2 -> mod_inverse a2 N = return_ x5 ->
  primary_candidate N e1 e2 c1 c2 x2 x5 = ret (c1p, c2p, cand) ->
  1 < cand -> N mod cand = 0 -> N / cand * cand = N ->
  solve_for_primes N e1 e2 c1 c2 =
  (banner :: primary_report c1 c2 (N / cand) cand
               ((a1 * (N / cand) + b1 * cand) ^ e1 mod N)
               ((a2 * (N / cand) + b2 * cand) ^ e2 mod N),
   Return (Some (N / cand, cand))).
Proof.
  intros He1 He2 H1 H2 Hc Hgt Hm Hp.
  pose proof (primary_candidate_modulus _ _ _ _ _ _ _ _ _ Hc) as HN.
  apply (solve_accepts_candidate N e1 e2 c1 c2 x2 x5 c1p c2p cand); auto.
  - apply py_pow_nonneg; assumption.
  - apply py_pow_nonneg; assumption.
Qed.

(** The instance has a failing cross-check: the returned pair [(1, 143)]
    does not reproduce [c1] or [c2]. *)
Lemma primary_candidate_returned_witness :
  solve_for_primes 143 5 1 120 3 =
  (banner :: primary_report 120 3 (143 / 143) 143
               ((a1 * (143 / 143) + b1 * 143) ^ 5 mod 143)
               ((a2 * (143 / 143) + b2 * 143) ^ 1 mod 143),
   Return (Some (143 / 143, 143))).
Proof.
  apply (primary_candidate_returned 143 5 1 120 3 72 86 120 100 143);
    try lia; vm_compute; reflexivity.
Defined.

(** The bound on the exponents is needed: with [e1 = -1] the cross-check
    [pow(a1*p + b1*q, e1, N)] asks for the inverse of [27] modulo [27] and
    raises after the factors were printed. *)
Lemma negative_exponent_cross_check :
  primary_candidate 27 (-1) 1 1 1 14 11 = ret (1, 1, 3) /\
  solve_for_primes 27 (-1) 1 1 1 =
    ([banner; Text "Found factors:"; TextZ "p = " 9; TextZ "q = " 3],
     Raise ValueError).
Proof. split; vm_compute; reflexivity. Qed.

(** A coefficient plus a multiple of [N] is as invertible as the
    coefficient. *)
Lemma gcd_coefficient_shift (a b N : Z) :
  N <> 0 -> Z.gcd a N = 1 -> Z.gcd (a * (N / N) + b * N) N = 1.
Proof.
  intros HN H.
  rewrite Z.div_same by assumption. rewrite Z.mul_1_r.
  rewrite Z.gcd_comm, Z.gcd_add_mult_diag_r, Z.gcd_comm. exact H.
Qed.

(** C8: for [N > 1] with both primary inverses, a stage-1 candidate equal
    to [N] is accepted by the primary stage and a candidate equal to [1] by
    the swap stage; either way the solver returns the pair [(1, N)]. *)
Theorem trivial_candidate_returned (N e1 e2 c1 c2 x2 x5 c1p c2p cand : Z) :
  1 < N ->
  mod_inverse a1 N = return_ x2 -> mod_inverse a2 N = return_ x5 ->
  primary_candidate N e1 e2 c1 c2 x2 x5 = ret (c1p, c2p, cand) ->
  cand = 1 \/ cand = N ->
  returned (solve_for_primes N e1 e2 c1 c2) = Return (Some (1, N)) /\
  (cand = N ->
   exists t1 t2, output (solve_for_primes N e1 e2 c1 c2) =
                 banner :: primary_report c1 c2 1 N t1 t2) /\
  (cand = 1 ->
   output (solve_for_primes N e1 e2 c1 c2) = banner :: swap_report 1 N).
Proof.
  intros HN H1 H2 Hc [-> | ->].
  - rewrite (solve_swaps_unit _ _ _ _ _ _ _ _ _ H1 H2 Hc).
    split; [reflexivity|]. split; [lia | reflexivity].
  - destruct (py_pow_coprime (R := result) (a1 * (N / N) + b1 * N) e1 N
                ltac:(lia)) as [t1 P1].
    { apply gcd_coefficient_shift; [lia|]. exact (mod_inverse_return_gcd _ _ _ _ H1). }
    destruct (py_pow_coprime (R := result) (a2 * (N / N) + b2 * N) e2 N
                ltac:(lia)) as [t2 P2].
    { apply gcd_coefficient_shift; [lia|]. exact (mod_inverse_return_gcd _ _ _ _ H2). }
    rewrite (solve_accepts_candidate N e1 e2 c1 c2 x2 x5 c1p c2p N t1 t2
               H1 H2 Hc HN ltac:(apply Z.mod_same; lia)
               ltac:(rewrite Z.div_same; lia) P1 P2).
    rewrite Z.div_same by lia.
    split; [reflexivity|]. split; [|lia].
    intros _. exists t1, t2. reflexivity.
Qed.

Lemma trivial_candidate_returned_witness :
  returned (solve_for_primes 143 5 1 120 3) = Return (Some (1, 143)) /\
  (143 = 143 ->
   exists t1 t2, output (solve_for_primes 143 5 1 120 3) =
                 banner :: primary_report 120 3 1 143 t1 t2) /\
  (143 = 1 ->
   output (solve_for_primes 143 5 1 120 3) = banner :: swap_report 1 143).
Proof.
  apply (trivial_candidate_returned 143 5 1 120 3 72 86 120 100 143);
    try lia; try (vm_compute; reflexivity).
Defined.

(** ** The solver on its intended domain: [N > 1], exponents not negative *)

Lemma primary_candidate_value (N e1 e2 c1 c2 x2 x5 : Z) :
  1 < N -> 0 <= e1 -> 0 <= e2 ->
  primary_candidate N e1 e2 c1 c2 x2 x5 =
  ret (c1 ^ e2 mod N, c2 ^ e1 mod N, q_candidate_value N e1 e2 c1 c2 x2 x5).
Proof.
  intros HN He1 He2. unfold primary_candidate.
  pose proof (Z.mod_pos_bound (e2 * e1) (N - 1) ltac:(lia)).
  pose proof (Z.mod_pos_bound (e1 * e2) (N - 1) ltac:(lia)).
  repeat first [ rewrite py_mod_ok by lia
               | rewrite py_pow_nonneg by lia
               | rewrite bind_ret_l ].
  reflexivity.
Qed.

Lemma q_candidate_value_divides (N e1 e2 c1 c2 x2 x5 : Z) :
  1 < N ->
  0 < q_candidate_value N e1 e2 c1 c2 x2 x5 /\
  (q_candidate_value N e1 e2 c1 c2 x2 x5 | N).
Proof.
  intros HN. unfold q_candidate_value. cbv zeta.
  set (d := (_ - _) mod N). split.
  - pose proof (Z.gcd_nonneg d N).
    destruct (Z.eq_dec (Z.gcd d N) 0) as [E|E]; [|lia].
    apply Z.gcd_eq_0_r in E. lia.
  - apply Z.gcd_divide_r.
Qed.

(** The three ways the solver ends on that domain. *)
Lemma solve_for_primes_cases (N e1 e2 c1 c2 : Z) :
  1 < N -> 0 <= e1 -> 0 <= e2 ->
  (exists e, solve_for_primes N e1 e2 c1 c2 =
             ([banner; TextExn "Error calculating modular inverse: " e],
              Return None)) \/
  (exists x2 x5,
      mod_inverse a1 N = return_ x2 /\ mod_inverse a2 N = return_ x5 /\
      let cand := q_candidate_value N e1 e2 c1 c2 x2 x5 in
      (1 < cand /\ (cand | N) /\
       solve_for_primes N e1 e2 c1 c2 =
       (banner :: primary_report c1 c2 (N / cand) cand
                    ((a1 * (N / cand) + b1 * cand) ^ e1 mod N)
                    ((a2 * (N / cand) + b2 * cand) ^ e2 mod N),
        Return (Some (N / cand, cand)))) \/
      (cand = 1 /\
       solve_for_primes N e1 e2 c1 c2 =
       (banner :: swap_report 1 N, Return (Some (1, N))))).
Proof.
  intros HN He1 He2.
  destruct (mod_inverse_cases a1 N) as [[x2 H1] | H1];
    [|left; apply solve_for_primes_inverse_error; left; exact H1].
  destruct (mod_inverse_cases a2 N) as [[x5 H2] | H2];
    [|left; apply solve_for_primes_inverse_error; right; exact H2].
  right. exists x2, x5. split; [exact H1|]. split; [exact H2|]. cbv zeta.
  pose proof (primary_candidate_value N e1 e2 c1 c2 x2 x5 HN He1 He2) as Hc.
  destruct (q_candidate_value_divides N e1 e2 c1 c2 x2 x5 HN) as [Hpos Hdiv].
  set (cand := q_candidate_value N e1 e2 c1 c2 x2 x5) in *.
  destruct (Z.eq_dec cand 1) as [E1|E1].
  - right. split; [exact E1|]. rewrite E1 in Hc.
    exact (solve_swaps_unit _ _ _ _ _ _ _ _ _ H1 H2 Hc).
  - left. split; [lia|]. split; [exact Hdiv|].
    destruct Hdiv as [k Hk].
    assert (Hq : N / cand = k) by (rewrite Hk; apply Z.div_mul; lia).
    apply (solve_accepts_candidate N e1 e2 c1 c2 x2 x5
             (c1 ^ e2 mod N) (c2 ^ e1 mod N) cand); auto.
    + lia.
    + rewrite Hk. apply Z.mod_mul. lia.
    + lia.
    + apply py_pow_nonneg; lia.
    + apply py_pow_nonneg; lia.
Qed.

(** Whatever the body of a [try] raises, the handler of the alternate
    stage prints it and the stage falls through. *)
Lemma alternate_stage_guarded (N e1 e2 c1p c2p : Z) (l : list line) (e : exn) :
  alternate_stage N e1 e2 c1p c2p <> (l, Raise e).
Proof.
  unfold alternate_stage, try_except.
  destruct (alternate_body N e1 e2 c1p c2p) as [l' [[] | r | e']];
    simpl; discriminate.
Qed.

(** So does the handler of the first [try], which returns. *)
Lemma primary_inverses_guarded (N : Z) (l : list line) (e : exn) :
  guarded_inverses N <> (l, Raise e).
Proof.
  unfold guarded_inverses, try_except.
  destruct (primary_inverses N) as [l' [[x2 x5] | r | e']]; simpl; discriminate.
Qed.

(** C9: for [N > 1] and non-negative [e1], [e2], [c1], [c2] the solver
    raises nothing: both [try] blocks absorb every exception of their
    body, and the solver returns [(None, None)] or a pair of positive
    integers. *)
Theorem solve_for_primes_safe (N e1 e2 c1 c2 : Z) :
  1 < N -> 0 <= e1 -> 0 <= e2 -> 0 <= c1 -> 0 <= c2 ->
  (forall l e, guarded_inverses N <> (l, Raise e)) /\
  (forall c1p c2p l e, alternate_stage N e1 e2 c1p c2p <> (l, Raise e)) /\
  exists r, returned (solve_for_primes N e1 e2 c1 c2) = Return r /\
            (r = None \/ exists p q, r = Some (p, q) /\ 0 < p /\ 0 < q).
Proof.
  intros HN He1 He2 _ _.
  split; [intros l e; apply primary_inverses_guarded|].
  split; [intros c1p c2p l e; apply alternate_stage_guarded|].
  destruct (solve_for_primes_cases N e1 e2 c1 c2 HN He1 He2)
    as [[e E] | (x2 & x5 & _ & _ & [(Hc & [k Hk] & E) | (_ & E)])];
    rewrite E; simpl.
  - exists None. auto.
  - eexists. split; [reflexivity|]. right. do 2 eexists.
    split; [reflexivity|].
    set (cand := q_candidate_value N e1 e2 c1 c2 x2 x5) in *.
    assert (N / cand = k) as -> by (rewrite Hk; apply Z.div_mul; lia).
    split; nia.
  - eexists. split; [reflexivity|]. right. exists 1, N.
    repeat split; lia.
Qed.

Lemma solve_for_primes_safe_witness :
  (forall l e, guarded_inverses 3233 <> (l, Raise e)) /\
  (forall c1p c2p l e, alternate_stage 3233 1 1 c1p c2p <> (l, Raise e)) /\
  exists r, returned (solve_for_primes 3233 1 1 281 676) = Return r /\
            (r = None \/ exists p q, r = Some (p, q) /\ 0 < p /\ 0 < q).
Proof. apply (solve_for_primes_safe 3233 1 1 281 676); lia. Defined.

(** C10: for [N > 1] and non-negative [e1], [e2], [c1], [c2] the solver
    terminates.  On non-negative arguments the recursive call of
    [extended_gcd] has a smaller first argument, so a call depth above [a]
    reaches the base case; the four calls the solver makes need depth at
    most 8; and the solver itself is a fixed sequence that ends in a
    [return] after at most 12 printed lines. *)
Theorem solve_for_primes_terminates (N e1 e2 c1 c2 : Z) :
  1 < N -> 0 <= e1 -> 0 <= e2 -> 0 <= c1 -> 0 <= c2 ->
  (forall a b, 0 < a -> 0 <= b -> 0 <= b mod a < a) /\
  (forall a b fuel, 0 <= a -> 0 <= b -> (Z.to_nat a < fuel)%nat ->
                    extended_gcd_fuel fuel a b = Some (extended_gcd a b)) /\
  (forall a, In a [a1; a2; b1; b2] ->
             extended_gcd_fuel 8 a N = Some (extended_gcd a N)) /\
  (exists r, returned (solve_for_primes N e1 e2 c1 c2) = Return r) /\
  (List.length (output (solve_for_primes N e1 e2 c1 c2)) <= 12)%nat.
Proof.
  intros HN He1 He2 _ _. split; [|split; [|split; [|split]]].
  - intros a b Ha _. apply Z.mod_pos_bound. exact Ha.
  - intros a b fuel Ha _ Hf. apply extended_gcd_fuel_enough. lia.
  - intros a Ha. apply extended_gcd_fuel_enough.
    simpl in Ha. unfold a1, a2, b1, b2 in Ha.
    destruct Ha as [<- | [<- | [<- | [<- | []]]]]; simpl; lia.
  - destruct (solve_for_primes_cases N e1 e2 c1 c2 HN He1 He2)
      as [[e E] | (x2 & x5 & _ & _ & [(_ & _ & E) | (_ & E)])];
      rewrite E; simpl; eauto.
  - destruct (solve_for_primes_cases N e1 e2 c1 c2 HN He1 He2)
      as [[e E] | (x2 & x5 & _ & _ & [(_ & _ & E) | (_ & E)])];
      rewrite E; simpl; lia.
Qed.

Lemma solve_for_primes_terminates_witness :
  (forall a b, 0 < a -> 0 <= b -> 0 <= b mod a < a) /\
  (forall a b fuel, 0 <= a -> 0 <= b -> (Z.to_nat a < fuel)%nat ->
                    extended_gcd_fuel fuel a b = Some (extended_gcd a b)) /\
  (forall a, In a [a1; a2; b1; b2] ->
             extended_gcd_fuel 8 a 3233 = Some (extended_gcd a 3233)) /\
  (exists r, returned (solve_for_primes 3233 1 1 281 676) = Return r) /\
  (List.length (output (solve_for_primes 3233 1 1 281 676)) <= 12)%nat.
Proof. apply (solve_for_primes_terminates 3233 1 1 281 676); lia. Defined.

(** * Recovering the primes *)

(** ** Congruences *)

Lemma cong_iff_mod (m a b : Z) : cong m a b <-> a mod m = b mod m.
Proof.
  unfold cong. destruct (Z.eq_dec m 0) as [->|Hm].
  - rewrite !Z.mod_0_r. split.
    + intros [k Hk]. lia.
    + intros ->. exists 0. lia.
  - split.
    + intros [k Hk]. replace a with (b + k * m) by lia.
      apply Z.mod_add. assumption.
    + intros H. exists (a / m - b / m).
      pose proof (Z.div_mod a m Hm). pose proof (Z.div_mod b m Hm). nia.
Qed.

#[local] Instance cong_equivalence (m : Z) : Equivalence (cong m).
Proof.
  split.
  - intros a. apply cong_iff_mod. reflexivity.
  - intros a b H. apply cong_iff_mod. symmetry. apply cong_iff_mod, H.
  - intros a b c H1 H2. apply cong_iff_mod.
    transitivity (b mod m); apply cong_iff_mod; assumption.
Qed.

#[local] Instance cong_add (m : Z) : Proper (cong m ==> cong m ==> cong m) Z.add.
Proof.
  intros a a' [k Hk] b b' [j Hj]. exists (k + j). lia.
Qed.

#[local] Instance cong_sub (m : Z) : Proper (cong m ==> cong m ==> cong m) Z.sub.
Proof.
  intros a a' [k Hk] b b' [j Hj]. exists (k - j). lia.
Qed.

#[local] Instance cong_mul (m : Z) : Proper (cong m ==> cong m ==> cong m) Z.mul.
Proof.
  intros a a' [k Hk] b b' [j Hj]. exists (k * b + a' * j). nia.
Qed.

#[local] Instance cong_pow (m : Z) : Proper (cong m ==> eq ==> cong m) Z.pow.
Proof.
  intros u v H e ? <-. apply cong_iff_mod. apply cong_iff_mod in H.
  rewrite <- (Z.mod_pow_l u), <- (Z.mod_pow_l v), H. reflexivity.
Qed.

Lemma cong_mod (m a : Z) : cong m (a mod m) a.
Proof. apply cong_iff_mod. apply Zmod_mod. Qed.

Lemma cong_self (m : Z) : cong m m 0.
Proof. exists 1. lia. Qed.

Lemma cong_divisor (m N a b : Z) : (m | N) -> cong N a b -> cong m a b.
Proof. intros Hd H. exact (Z.divide_trans _ _ _ Hd H). Qed.

Lemma cong_0_divide (m a : Z) : cong m a 0 <-> (m | a).
Proof. unfold cong. rewrite Z.sub_0_r. reflexivity. Qed.

(** The gcd of a semiprime with a multiple of exactly one of its primes. *)
Lemma gcd_semiprime (p q d : Z) :
  Z.prime p -> 0 < q -> (q | d) -> ~ (p | d) -> Z.gcd d (p * q) = q.
Proof.
  intros Hp Hq [k ->] Hnd.
  rewrite Z.gcd_mul_mono_r_nonneg by lia.
  assert (G : Z.gcd k p = 1).
  { rewrite Z.gcd_comm. apply Z.coprime_prime_l; [assumption|].
    intros Hk. apply Hnd. apply Z.divide_mul_l. exact Hk. }
  rewrite G. lia.
Qed.

Section Challenge.
Variables p q e1 e2 x2 x5 : Z.
Hypothesis prime_p : Z.prime p.
Hypothesis prime_q : Z.prime q.
Hypothesis distinct : p <> q.
Hypothesis e1_nonneg : 0 <= e1.
Hypothesis e2_nonneg : 0 <= e2.
Hypothesis inv2 : (a1 * x2) mod (p * q) = 1.
Hypothesis inv5 : (a2 * x5) mod (p * q) = 1.

Let N := p * q.
Let E := e1 * e2.
Let c1 := (a1 * p + b1 * q) ^ e1 mod N.
Let c2 := (a2 * p + b2 * q) ^ e2 mod N.

Lemma modulus_large : 3 < N.
Proof.
pose proof (Z.prime_ge_2 p prime_p). pose proof (Z.prime_ge_2 q prime_q).
unfold N. nia.
Qed.

Lemma inv2_cong : cong N (a1 * x2) 1.
Proof.
pose proof modulus_large. apply cong_iff_mod. fold N in inv2. rewrite inv2.
symmetry. apply Z.mod_small. lia.
Qed.

Lemma inv5_cong : cong N (a2 * x5) 1.
Proof.
pose proof modulus_large. apply cong_iff_mod. fold N in inv5. rewrite inv5.
symmetry. apply Z.mod_small. lia.
Qed.

(** The difference whose gcd with [N] is the candidate, up to congruence. *)
Lemma difference_cong :
E < N - 1 ->
exists d, q_candidate_value N e1 e2 c1 c2 x2 x5 = Z.gcd d N /\
          cong N d ((x5 * (a2 * p + b2 * q)) ^ E - (x2 * (a1 * p + b1 * q)) ^ E).
Proof.
intros HE. unfold q_candidate_value. cbv zeta.
eexists. split; [reflexivity|].
assert (0 <= E) by (unfold E; nia).
replace (e2 * e1) with E by (unfold E; lia). fold E.
rewrite (Z.mod_small E (N - 1)) by lia.
rewrite !cong_mod. unfold c1, c2. rewrite !cong_mod.
rewrite <- !Z.pow_mul_r by assumption.
replace (e2 * e1) with E by (unfold E; lia). fold E.
rewrite <- !Z.pow_mul_l. reflexivity.
Qed.

(** Modulo [q] both terms are [p ^ E]. *)
Lemma difference_mod_q :
cong q ((x5 * (a2 * p + b2 * q)) ^ E - (x2 * (a1 * p + b1 * q)) ^ E) 0.
Proof.
assert (Hq : (q | N)) by (exists p; reflexivity).
pose proof (cong_divisor q N _ _ Hq inv2_cong) as I2.
pose proof (cong_divisor q N _ _ Hq inv5_cong) as I5.
assert (T1 : cong q (x5 * (a2 * p + b2 * q)) p).
{ replace (x5 * (a2 * p + b2 * q)) with (a2 * x5 * p + x5 * b2 * q) by ring.
  rewrite I5. rewrite (cong_self q) at 2.
  replace (1 * p + x5 * b2 * 0) with p by ring. reflexivity. }
assert (T2 : cong q (x2 * (a1 * p + b1 * q)) p).
{ replace (x2 * (a1 * p + b1 * q)) with (a1 * x2 * p + x2 * b1 * q) by ring.
  rewrite I2. rewrite (cong_self q) at 2.
  replace (1 * p + x2 * b1 * 0) with p by ring. reflexivity. }
rewrite T1, T2. replace (p ^ E - p ^ E) with 0 by ring. reflexivity.
Qed.

(** Modulo [p] the two terms differ unless [p] divides
  [(a1 * b2) ^ E - (a2 * b1) ^ E]. *)
Lemma difference_mod_p :
(p | (x5 * (a2 * p + b2 * q)) ^ E - (x2 * (a1 * p + b1 * q)) ^ E) ->
(p | (a1 * b2) ^ E - (a2 * b1) ^ E).
Proof.
intros H. apply (proj2 (cong_0_divide _ _)) in H.
assert (0 <= E) by (unfold E; nia).
assert (Hp : (p | N)) by (exists q; unfold N; ring).
pose proof (cong_divisor p N _ _ Hp inv2_cong) as I2.
pose proof (cong_divisor p N _ _ Hp inv5_cong) as I5.
assert (K : cong p (((a1 * b2) ^ E - (a2 * b1) ^ E) * q ^ E) 0).
{ transitivity ((a1 * a2) ^ E *
                ((x5 * (a2 * p + b2 * q)) ^ E - (x2 * (a1 * p + b1 * q)) ^ E));
    [|rewrite H; replace ((a1 * a2) ^ E * 0) with 0 by ring; reflexivity].
  rewrite Z.mul_sub_distr_l, Z.mul_sub_distr_r.
  rewrite <- !Z.pow_mul_l.
  apply cong_sub; apply cong_pow; trivial.
  - destruct I5 as [k Hk].
    exists (- (a1 * a2) - a1 * k * (a2 * p + b2 * q)).
    replace (a1 * a2 * (x5 * (a2 * p + b2 * q)))
      with (a1 * (a2 * x5) * (a2 * p + b2 * q)) by ring.
    replace (a2 * x5) with (1 + k * p) by lia. ring.
  - destruct I2 as [k Hk].
    exists (- (a2 * a1) - a2 * k * (a1 * p + b1 * q)).
    replace (a1 * a2 * (x2 * (a1 * p + b1 * q)))
      with (a2 * (a1 * x2) * (a1 * p + b1 * q)) by ring.
    replace (a1 * x2) with (1 + k * p) by lia. ring. }
apply (proj1 (cong_0_divide _ _)) in K.
rewrite Z.mul_comm in K. apply Z.gauss in K; [exact K|].
apply Z.coprime_pow_r; [assumption|].
apply Z.coprime_prime_l; [assumption|].
intros Hd. apply (Z.divide_prime_prime p q prime_p prime_q) in Hd.
contradiction.
Qed.

(** On a well-formed instance the candidate is [q]. *)
Lemma candidate_is_q :
E < N - 1 -> ~ (p | (a1 * b2) ^ E - (a2 * b1) ^ E) ->
q_candidate_value N e1 e2 c1 c2 x2 x5 = q.
Proof.
intros HE Hnd.
destruct (difference_cong HE) as (d & -> & Hd).
pose proof (Z.prime_ge_2 q prime_q).
apply gcd_semiprime; [assumption | lia | |].
- apply (proj1 (cong_0_divide _ _)). rewrite <- difference_mod_q.
  apply (cong_divisor q N); [exists p; reflexivity | exact Hd].
- intros Hp. apply Hnd, difference_mod_p.
  apply (proj1 (cong_0_divide _ _)).
  apply (proj2 (cong_0_divide _ _)) in Hp. rewrite <- Hp.
  symmetry. apply (cong_divisor p N); [exists q; unfold N; ring | exact Hd].
Qed.
End Challenge.

(** Trial division decides the primality of a small number. *)
Lemma prime_by_trial (p : Z) :
  1 < p ->
  forallb (fun n => negb (p mod Z.of_nat n =? 0)) (seq 2 (Z.to_nat p - 2)) = true ->
  Z.prime p.
Proof.
  intros Hp Hall. split; [exact Hp|].
  intros n Hn Hd.
  rewrite forallb_forall in Hall.
  specialize (Hall (Z.to_nat n)).
  rewrite Z2Nat.id in Hall by lia.
  assert (Hin : In (Z.to_nat n) (seq 2 (Z.to_nat p - 2))) by (apply in_seq; lia).
  specialize (Hall Hin).
  apply Z.mod_divide in Hd; [|lia].
  rewrite Hd in Hall. discriminate Hall.
Qed.

(** C1, as stated, fails: [11] and [13] are distinct primes coprime to 2,
    3, 5 and 7, and with [e1 = 5], [e2 = 1] the difference vanishes modulo
    both, so the candidate is [N] and the solver returns [(1, 143)]. *)
Lemma degenerate_exponent_counterexample :
  ~ (forall p q e1 e2,
        Z.prime p -> Z.prime q -> p <> q ->
        coprime_to_coefficients p -> coprime_to_coefficients q ->
        0 < e1 -> 0 < e2 ->
        let N := p * q in
        let r := returned (solve_for_primes N e1 e2
                             ((a1 * p + b1 * q) ^ e1 mod N)
                             ((a2 * p + b2 * q) ^ e2 mod N)) in
        r = Return (Some (p, q)) \/ r = Return (Some (q, p))).
Proof.
  intros H.
  assert (P11 : Z.prime 11) by (apply prime_by_trial; [lia | reflexivity]).
  assert (P13 : Z.prime 13) by (apply prime_by_trial; [lia | reflexivity]).
  specialize (H 11 13 5 1 P11 P13 ltac:(lia)
                ltac:(repeat split; reflexivity) ltac:(repeat split; reflexivity)
                ltac:(lia) ltac:(lia)).
  vm_compute in H. destruct H as [H | H]; discriminate H.
Qed.

(** C1, amended: for [N = p * q] with [p], [q] distinct primes coprime to
    2, 3, 5 and 7, exponents [e1, e2 >= 0] with [e1 * e2 < N - 1], and
    ciphertexts built by the defining equations, the solver returns exactly
    [(p, q)] provided [p] does not divide [14 ^ (e1*e2) - 15 ^ (e1*e2)]. *)
Theorem solve_for_primes_recovers (p q e1 e2 : Z) :
  Z.prime p -> Z.prime q -> p <> q ->
  coprime_to_coefficients p -> coprime_to_coefficients q ->
  0 <= e1 -> 0 <= e2 -> e1 * e2 < p * q - 1 ->
  ~ (p | (a1 * b2) ^ (e1 * e2) - (a2 * b1) ^ (e1 * e2)) ->
  returned (solve_for_primes (p * q) e1 e2
              ((a1 * p + b1 * q) ^ e1 mod (p * q))
              ((a2 * p + b2 * q) ^ e2 mod (p * q)))
  = Return (Some (p, q)).
Proof.
  intros Pp Pq Hne (Cp1 & _ & Cp2 & _) (Cq1 & _ & Cq2 & _) He1 He2 HE Hnd.
  pose proof (Z.prime_ge_2 p Pp) as Hp.
  pose proof (Z.prime_ge_2 q Pq) as Hq.
  assert (HN : 3 < p * q) by nia.
  assert (G1 : Z.gcd a1 (p * q) = 1).
  { apply Z.coprime_mul_r; unfold Z.coprime; rewrite Z.gcd_comm; assumption. }
  assert (G2 : Z.gcd a2 (p * q) = 1).
  { apply Z.coprime_mul_r; unfold Z.coprime; rewrite Z.gcd_comm; assumption. }
  destruct (mod_inverse_coprime a1 (p * q) ltac:(unfold a1; lia) ltac:(lia) G1)
    as (x2 & H1 & _ & I2).
  destruct (mod_inverse_coprime a2 (p * q) ltac:(unfold a2; lia) ltac:(lia) G2)
    as (x5 & H2 & _ & I5).
  pose proof (primary_candidate_value (p * q) e1 e2
                ((a1 * p + b1 * q) ^ e1 mod (p * q))
                ((a2 * p + b2 * q) ^ e2 mod (p * q)) x2 x5
                ltac:(lia) He1 He2) as Hc.
  rewrite (candidate_is_q p q e1 e2 x2 x5 Pp Pq Hne He1 He2 I2 I5 HE Hnd) in Hc.
  assert (Hdiv : p * q / q = p) by (apply Z.div_mul; lia).
  assert (Hm : (p * q) mod q = 0) by (apply Z.mod_mul; lia).
  assert (Hr : p * q / q * q = p * q) by (rewrite Hdiv; reflexivity).
  assert (Hnz : p * q <> 0) by lia.
  assert (Hq1 : 1 < q) by lia.
  pose proof (py_pow_nonneg (R := result)
                (a1 * (p * q / q) + b1 * q) e1 (p * q) Hnz He1) as P1.
  pose proof (py_pow_nonneg (R := result)
                (a2 * (p * q / q) + b2 * q) e2 (p * q) Hnz He2) as P2.
  unfold returned.
  rewrite (solve_accepts_candidate _ _ _ _ _ _ _ _ _ q _ _ H1 H2 Hc
             Hq1 Hm Hr P1 P2).
  simpl. rewrite Hdiv. reflexivity.
Qed.

(** The scenario [N = 3233 = 61 * 53] with [e1 = e2 = 1]. *)
Lemma solve_for_primes_recovers_witness :
  returned (solve_for_primes (61 * 53) 1 1
              ((a1 * 61 + b1 * 53) ^ 1 mod (61 * 53))
              ((a2 * 61 + b2 * 53) ^ 1 mod (61 * 53)))
  = Return (Some (61, 53)).
Proof.
  apply (solve_for_primes_recovers 61 53 1 1).
  - apply prime_by_trial; [lia | reflexivity].
  - apply prime_by_trial; [lia | reflexivity].
  - lia.
  - repeat split; reflexivity.
  - repeat split; reflexivity.
  - lia.
  - lia.
  - lia.
  - intros [k Hk].
    change ((a1 * b2) ^ (1 * 1) - (a2 * b1) ^ (1 * 1)) with (-1) in Hk. lia.
Defined.

(** * Further properties *)

(** ** [extended_gcd] on all integers *)

(** X1: for all integers [a], [b], also negative ones, the triple
    [(g, x, y)] of [extended_gcd a b] satisfies [a*x + b*y = g]. *)
Theorem extended_gcd_bezout_all (a b : Z) :
  let '(g, x, y) := extended_gcd a b in a * x + b * y = g.
Proof.
  destruct (extended_gcd a b) as [[g x] y] eqn:E.
  exact (extended_gcd_bezout a b g x y E).
Qed.

(** X2: the first component of [extended_gcd a b] is [b] for [a = 0], the
    gcd for [a > 0] and minus the gcd for [a < 0], whatever the sign of
    [b]. *)
Theorem extended_gcd_sign (a b : Z) :
  fst (fst (extended_gcd a b)) = if a =? 0 then b else Z.sgn a * Z.gcd a b.
Proof.
  funelim (extended_gcd a b).
  - subst a. reflexivity.
  - destruct (Z.eqb_spec a 0) as [|_]; [contradiction|].
    destruct (extended_gcd (b mod a) a) as [[g' x'] y']. simpl in *.
    rewrite H. destruct (Z.eqb_spec (b mod a) 0) as [E|E].
    + apply Z.mod_divide in E; [|assumption].
      rewrite <- Z.gcd_abs_l.
      rewrite (proj1 (Z.divide_gcd_iff (Z.abs a) b (Z.abs_nonneg a)))
        by (apply Z.divide_abs_l; exact E).
      rewrite Z.mul_comm. symmetry. apply Z.abs_sgn.
    + rewrite Z.gcd_mod by assumption.
      replace (Z.sgn (b mod a)) with (Z.sgn a); [reflexivity|].
      destruct (Z_lt_le_dec a 0).
      * pose proof (Z.mod_neg_bound b a ltac:(lia)). lia.
      * pose proof (Z.mod_pos_bound b a ltac:(lia)). lia.
Qed.

(** More call depth does not change the result. *)
Lemma extended_gcd_fuel_mono (n m : nat) :
  (n <= m)%nat -> forall a b r,
  extended_gcd_fuel n a b = Some r -> extended_gcd_fuel m a b = Some r.
Proof.
  revert m. induction n as [|n IH]; intros m Hm a b r; [discriminate|].
  destruct m as [|m]; [lia|]. simpl.
  destruct (a =? 0); [trivial|].
  destruct (extended_gcd_fuel n (b mod a) a) as [[[g x] y]|] eqn:E; [|discriminate].
  rewrite (IH m ltac:(lia) _ _ _ E). trivial.
Qed.

Lemma extended_gcd_fuel_S (n : nat) (a b : Z) :
  extended_gcd_fuel (S n) a b =
  if a =? 0 then Some (b, 0, 1)
  else match extended_gcd_fuel n (b mod a) a with
       | Some (gcd, x, y) => Some (gcd, y - (b / a) * x, x)
       | None => None
       end.
Proof. reflexivity. Qed.

(** Each call at least halves the product of the arguments. *)
Lemma extended_gcd_fuel_product (n : nat) :
  forall a b, 0 <= a < b -> a * b < 2 ^ Z.of_nat n ->
              extended_gcd_fuel (S n) a b = Some (extended_gcd a b).
Proof.
  induction n as [|n IH]; intros a b Hab Hp.
  - assert (a = 0) as -> by nia. rewrite extended_gcd_0. reflexivity.
  - rewrite extended_gcd_fuel_S, extended_gcd_eq.
    destruct (Z.eqb_spec a 0) as [|Hne]; [reflexivity|].
    pose proof (Z.mod_pos_bound b a ltac:(lia)) as Hr.
    pose proof (Z.div_mod b a Hne) as Hd.
    assert (1 <= b / a) by (apply Z.div_le_lower_bound; lia).
    rewrite IH.
    + destruct (extended_gcd (b mod a) a) as [[g x] y]. reflexivity.
    + lia.
    + rewrite Nat2Z.inj_succ, Z.pow_succ_r in Hp by lia. nia.
Qed.

(** X3: on non-negative arguments the recursion of [extended_gcd] is at
    most [log2 a + log2 b + 4] calls deep. *)
Theorem extended_gcd_depth (a b : Z) :
  0 <= a -> 0 <= b ->
  extended_gcd_fuel (Z.to_nat (Z.log2 a + Z.log2 b) + 4) a b
  = Some (extended_gcd a b).
Proof.
  intros Ha Hb.
  pose proof (Z.log2_nonneg a) as La. pose proof (Z.log2_nonneg b) as Lb.
  set (n := Z.to_nat (Z.log2 a + Z.log2 b)).
  destruct (Z.eq_dec a 0) as [->|Ha0].
  { replace (n + 4)%nat with (S (n + 3)) by lia. simpl.
    rewrite extended_gcd_0. reflexivity. }
  assert (Ba : a < 2 ^ (Z.log2 a + 1)).
  { pose proof (Z.log2_spec a ltac:(lia)) as S. rewrite <- Z.add_1_r in S. lia. }
  assert (Hpow : forall r, 0 <= r <= b -> r * a < 2 ^ Z.of_nat (n + 2)).
  { intros r Hr. destruct (Z.eq_dec b 0) as [->|Hb0].
    - assert (r = 0) as -> by lia. simpl. apply Z.pow_pos_nonneg; lia.
    - pose proof (Z.log2_spec b ltac:(lia)) as S. rewrite <- Z.add_1_r in S.
      replace (Z.of_nat (n + 2)) with ((Z.log2 b + 1) + (Z.log2 a + 1)) by lia.
      rewrite Z.pow_add_r by lia.
      assert (0 < 2 ^ (Z.log2 b + 1)) by (apply Z.pow_pos_nonneg; lia).
      nia. }
  destruct (Z_lt_le_dec a b) as [Hlt|Hge].
  - apply (extended_gcd_fuel_mono (S (n + 2))); [lia|].
    apply extended_gcd_fuel_product; [lia|].
    rewrite Z.mul_comm. apply Hpow. lia.
  - replace (n + 4)%nat with (S (S (n + 2))) by lia.
    rewrite extended_gcd_fuel_S, (extended_gcd_eq a b).
    destruct (Z.eqb_spec a 0) as [|_]; [contradiction|].
    pose proof (Z.mod_pos_bound b a ltac:(lia)) as Hr.
    rewrite extended_gcd_fuel_product.
    + destruct (extended_gcd (b mod a) a) as [[g x] y]. reflexivity.
    + lia.
    + apply Hpow. split; [lia|]. apply Z.mod_le; lia.
Qed.

Lemma extended_gcd_depth_witness :
  extended_gcd_fuel (Z.to_nat (Z.log2 1234567 + Z.log2 89101112) + 4)
    1234567 89101112
  = Some (extended_gcd 1234567 89101112).
Proof. apply (extended_gcd_depth 1234567 89101112); lia. Defined.

(** ** [mod_inverse] outside [a >= 0], [m > 1] *)

(** What a returned value of [mod_inverse] is made of. *)
Lemma mod_inverse_return_inv (a m x : Z) (l : list line) :
  mod_inverse a m = (l, Return x) ->
  m <> 0 /\ exists u v, a * u + m * v = 1 /\ x = u mod m.
Proof.
  unfold mod_inverse.
  destruct (extended_gcd a m) as [[g u] v] eqn:E.
  pose proof (extended_gcd_bezout a m g u v E) as B.
  destruct (Z.eqb_spec g 1) as [->|]; simpl; [|discriminate].
  unfold py_mod. destruct (Z.eqb_spec m 0) as [|Hm]; [discriminate|].
  rewrite bind_ret_l. intros H. injection H as _ <-.
  split; [exact Hm|]. exists u, v. auto.
Qed.

(** X4: for every [m > 1], a value [x] returned by [mod_inverse a m] is the
    only inverse of [a] in [0, m): every [y] in that range with
    [(a * y) mod m = 1] equals [x]. *)
Theorem mod_inverse_unique (a m x y : Z) (l : list line) :
  1 < m -> mod_inverse a m = (l, Return x) ->
  0 <= y < m -> (a * y) mod m = 1 -> y = x.
Proof.
  intros Hm Hr Hy Hay.
  destruct (mod_inverse_return_inv a m x l Hr) as (_ & u & v & B & ->).
  rewrite <- (Z.mod_small y m Hy).
  rewrite <- (Z.mul_1_l y) at 1.
  replace 1 with (a * u + m * v) at 1 by exact B.
  replace ((a * u + m * v) * y) with (u * (a * y) + (v * y) * m) by ring.
  rewrite Z.mod_add by lia.
  rewrite <- Z.mul_mod_idemp_r by lia. rewrite Hay, Z.mul_1_r. reflexivity.
Qed.

Lemma mod_inverse_unique_witness : (3 * 3233 + 1) / 5 = 1940.
Proof.
  apply (mod_inverse_unique 5 3233 1940 ((3 * 3233 + 1) / 5) []).
  - lia.
  - vm_compute. reflexivity.
  - vm_compute. split; [discriminate | reflexivity].
  - vm_compute. reflexivity.
Defined.

(** X5: [mod_inverse a m] raises the no-inverse exception for every
    negative [a], whatever [m] is. *)
Theorem mod_inverse_negative_raises (a m : Z) :
  a < 0 -> mod_inverse a m = raise no_inverse.
Proof.
  intros Ha. unfold mod_inverse.
  pose proof (extended_gcd_sign a m) as G.
  destruct (extended_gcd a m) as [[g x] y]. simpl in G.
  destruct (Z.eqb_spec a 0) as [|_]; [lia|].
  pose proof (Z.gcd_nonneg a m).
  destruct (Z.eqb_spec g 1); [nia | reflexivity].
Qed.

Lemma mod_inverse_negative_raises_witness :
  mod_inverse (-7) 40 = raise no_inverse.
Proof. apply (mod_inverse_negative_raises (-7) 40). lia. Defined.

(** X6: with modulus [0], [mod_inverse] never returns: it raises
    [ZeroDivisionError] for [a = 1] (at [x % m]) and the no-inverse
    exception for every other [a]. *)
Theorem mod_inverse_zero_modulus (a : Z) :
  mod_inverse a 0 = raise (if a =? 1 then ZeroDivisionError else no_inverse).
Proof.
  unfold mod_inverse.
  pose proof (extended_gcd_sign a 0) as G.
  destruct (extended_gcd a 0) as [[g x] y]. simpl in G.
  assert (g = a) as ->.
  { rewrite G. destruct (Z.eqb_spec a 0) as [->|]; [reflexivity|].
    rewrite Z.gcd_0_r, Z.mul_comm. apply Z.abs_sgn. }
  destruct (Z.eqb_spec a 1); reflexivity.
Qed.

(** X7: for [a > 0] coprime to a non-zero modulus [m] of either sign,
    [mod_inverse a m] returns [x] with [a * x] congruent to 1 modulo [m];
    [x] lies in [0, m) for a positive and in (m, 0] for a negative [m]. *)
Theorem mod_inverse_any_modulus (a m : Z) :
  0 < a -> m <> 0 -> Z.gcd a m = 1 ->
  exists x, mod_inverse a m = return_ x /\ (m | a * x - 1) /\
            (0 < m -> 0 <= x < m) /\ (m < 0 -> m < x <= 0).
Proof.
  intros Ha Hm Hg. unfold mod_inverse.
  pose proof (extended_gcd_sign a m) as G.
  destruct (extended_gcd a m) as [[g u] v] eqn:E. simpl in G.
  pose proof (extended_gcd_bezout a m g u v E) as B.
  destruct (Z.eqb_spec a 0) as [|_]; [lia|].
  assert (g = 1) as -> by (rewrite G, Hg; lia).
  simpl. rewrite py_mod_ok by assumption. rewrite bind_ret_l.
  exists (u mod m). split; [reflexivity|]. split; [|split].
  - exists (- v - a * (u / m)).
    pose proof (Z.div_mod u m Hm). nia.
  - intros H. apply Z.mod_pos_bound. exact H.
  - intros H. apply Z.mod_neg_bound. exact H.
Qed.

Lemma mod_inverse_any_modulus_witness :
  exists x, mod_inverse 2 (-3) = return_ x /\ (-3 | 2 * x - 1) /\
            (0 < -3 -> 0 <= x < -3) /\ (-3 < 0 -> -3 < x <= 0).
Proof. apply (mod_inverse_any_modulus 2 (-3)); try lia. reflexivity. Defined.

(** ** The solver on [N > 1] with non-negative exponents *)

(** The returned value in terms of the candidate. *)
Lemma solve_for_primes_value (N e1 e2 c1 c2 x2 x5 : Z) :
  1 < N -> 0 <= e1 -> 0 <= e2 ->
  mod_inverse a1 N = return_ x2 -> mod_inverse a2 N = return_ x5 ->
  returned (solve_for_primes N e1 e2 c1 c2) =
  Return (Some (if 1 <? q_candidate_value N e1 e2 c1 c2 x2 x5
                then (N / q_candidate_value N e1 e2 c1 c2 x2 x5,
                      q_candidate_value N e1 e2 c1 c2 x2 x5)
                else (1, N))).
Proof.
  intros HN He1 He2 H1 H2.
  pose proof (primary_candidate_value N e1 e2 c1 c2 x2 x5 HN He1 He2) as Hc.
  destruct (q_candidate_value_divides N e1 e2 c1 c2 x2 x5 HN) as [Hpos [k Hk]].
  set (cand := q_candidate_value N e1 e2 c1 c2 x2 x5) in *.
  unfold returned. destruct (Z.ltb_spec 1 cand) as [Hgt|Hle].
  - assert (Hq : N / cand = k) by (rewrite Hk; apply Z.div_mul; lia).
    rewrite (solve_accepts_candidate N e1 e2 c1 c2 x2 x5 _ _ cand
               ((a1 * (N / cand) + b1 * cand) ^ e1 mod N)
               ((a2 * (N / cand) + b2 * cand) ^ e2 mod N) H1 H2 Hc Hgt).
    + reflexivity.
    + rewrite Hk. apply Z.mod_mul. lia.
    + lia.
    + apply py_pow_nonneg; lia.
    + apply py_pow_nonneg; lia.
  - assert (E : cand = 1) by lia. rewrite E in Hc.
    rewrite (solve_swaps_unit _ _ _ _ _ _ _ _ _ H1 H2 Hc). reflexivity.
Qed.



(** X9: for [N > 1] and exponents [>= 0] the alternate-coefficient stage
    and the final failure report are never reached: none of their lines is
    ever printed. *)
Theorem alternate_stage_unreachable (N e1 e2 c1 c2 : Z) :
  1 < N -> 0 <= e1 -> 0 <= e2 ->
  ~ In (Text "Found factors (using b coefficients):")
       (output (solve_for_primes N e1 e2 c1 c2)) /\
  (forall e, ~ In (TextExn "Error in alternative approach: " e)
                  (output (solve_for_primes N e1 e2 c1 c2))) /\
  ~ In (Text "Could not find the factors with the given approach.")
       (output (solve_for_primes N e1 e2 c1 c2)).
Proof.
  intros HN He1 He2.
  destruct (solve_for_primes_cases N e1 e2 c1 c2 HN He1 He2)
    as [[e E] | (x2 & x5 & _ & _ & [(_ & _ & E) | (_ & E)])];
    rewrite E; unfold output, banner, primary_report, swap_report; simpl;
    (split; [|split]; [intros H | intros e0 H | intros H];
     repeat (destruct H as [H | H]; [discriminate H|]); exact H).
Qed.

Lemma alternate_stage_unreachable_witness :
  ~ In (Text "Found factors (using b coefficients):")
       (output (solve_for_primes 3233 1 1 281 676)) /\
  (forall e, ~ In (TextExn "Error in alternative approach: " e)
                  (output (solve_for_primes 3233 1 1 281 676))) /\
  ~ In (Text "Could not find the factors with the given approach.")
       (output (solve_for_primes 3233 1 1 281 676)).
Proof. apply (alternate_stage_unreachable 3233 1 1 281 676); lia. Defined.

Lemma q_candidate_value_reduced (N e1 e2 c1 c2 d1 d2 x2 x5 : Z) :
  c1 mod N = d1 mod N -> c2 mod N = d2 mod N ->
  q_candidate_value N e1 e2 c1 c2 x2 x5 = q_candidate_value N e1 e2 d1 d2 x2 x5.
Proof.
  intros E1 E2. unfold q_candidate_value. cbv zeta.
  rewrite <- (Z.mod_pow_l c1), <- (Z.mod_pow_l c2), E1, E2, !Z.mod_pow_l.
  reflexivity.
Qed.

(** X10: for [N > 1] and exponents [>= 0] the returned value depends on
    the ciphertexts only through their residues modulo [N]. *)
Theorem solve_for_primes_ciphertext_residue (N e1 e2 c1 c2 d1 d2 : Z) :
  1 < N -> 0 <= e1 -> 0 <= e2 ->
  c1 mod N = d1 mod N -> c2 mod N = d2 mod N ->
  returned (solve_for_primes N e1 e2 c1 c2) =
  returned (solve_for_primes N e1 e2 d1 d2).
Proof.
  intros HN He1 He2 E1 E2.
  destruct (mod_inverse_cases a1 N) as [[x2 H1] | H1].
  - destruct (mod_inverse_cases a2 N) as [[x5 H2] | H2].
    + rewrite !(solve_for_primes_value N e1 e2 _ _ x2 x5 HN He1 He2 H1 H2).
      rewrite (q_candidate_value_reduced N e1 e2 c1 c2 d1 d2 x2 x5 E1 E2).
      reflexivity.
    + destruct (solve_for_primes_inverse_error N e1 e2 c1 c2 (or_intror H2))
        as [e E].
      destruct (solve_for_primes_inverse_error N e1 e2 d1 d2 (or_intror H2))
        as [e' E'].
      rewrite E, E'. reflexivity.
  - destruct (solve_for_primes_inverse_error N e1 e2 c1 c2 (or_introl H1))
      as [e E].
    destruct (solve_for_primes_inverse_error N e1 e2 d1 d2 (or_introl H1))
      as [e' E'].
    rewrite E, E'. reflexivity.
Qed.

Lemma solve_for_primes_ciphertext_residue_witness :
  returned (solve_for_primes 3233 1 1 281 676) =
  returned (solve_for_primes 3233 1 1 (281 + 3233) (676 - 2 * 3233)).
Proof.
  apply (solve_for_primes_ciphertext_residue 3233 1 1); try lia; reflexivity.
Defined.

(** X11: for [N = 1] the solver raises [ZeroDivisionError], whatever the
    other arguments: both inverses are found, then [% (N-1)] divides by
    zero outside any [try]. *)
Theorem solve_for_primes_modulus_one (e1 e2 c1 c2 : Z) :
  solve_for_primes 1 e1 e2 c1 c2 = ([banner], Raise ZeroDivisionError).
Proof.
  rewrite (solve_for_primes_inverses 1 e1 e2 c1 c2 0 0)
    by (vm_compute; reflexivity).
  unfold solve_with_inverses, primary_candidate. reflexivity.
Qed.

(** A modulus sharing a factor with 2 or 5 stops the solver at once. *)
Lemma shared_factor_error (N e1 e2 c1 c2 : Z) :
  0 <= N -> (a1 | N) \/ (a2 | N) ->
  solve_for_primes N e1 e2 c1 c2 =
  ([banner; TextExn "Error calculating modular inverse: " no_inverse],
   Return None).
Proof.
  intros HN Hd.
  assert (H : primary_inverses N = raise no_inverse).
  { unfold primary_inverses.
    destruct (Z.eq_dec (Z.gcd a1 N) 1) as [G1|G1].
    - destruct Hd as [Hd | Hd].
      + apply Z.divide_gcd_iff in Hd; [|unfold a1; lia].
        rewrite Hd in G1. discriminate G1.
      + assert (1 < N).
        { destruct Hd as [k Hk]. unfold a2 in Hk.
          destruct (Z.eq_dec N 0) as [->|]; [discriminate G1|]. lia. }
        destruct (mod_inverse_coprime a1 N ltac:(unfold a1; lia) H G1)
          as (x2 & H1 & _).
        rewrite H1, call_return, bind_ret_l.
        rewrite (mod_inverse_not_coprime a2 N); [reflexivity | unfold a2; lia | lia |].
        apply Z.divide_gcd_iff in Hd; [|unfold a2; lia].
        rewrite Hd. discriminate.
    - rewrite (mod_inverse_not_coprime a1 N); [reflexivity | unfold a1; lia | lia | exact G1]. }
  unfold solve_for_primes, guarded_inverses. rewrite H. reflexivity.
Qed.

(** X12: for every [N >= 0] divisible by 2 or by 5, zero included, and all
    integers [e1], [e2], [c1], [c2], the solver prints the banner and the
    no-inverse error and returns [(None, None)]. *)
Theorem solve_for_primes_shared_factor (N e1 e2 c1 c2 : Z) :
  0 <= N -> (a1 | N) \/ (a2 | N) ->
  solve_for_primes N e1 e2 c1 c2 =
  ([banner; TextExn "Error calculating modular inverse: " no_inverse],
   Return None).
Proof. intros HN Hd. apply shared_factor_error; assumption. Qed.

Lemma solve_for_primes_shared_factor_witness :
  solve_for_primes 0 (-3) 7 11 (-5) =
  ([banner; TextExn "Error calculating modular inverse: " no_inverse],
   Return None).
Proof.
  apply (solve_for_primes_shared_factor 0 (-3) 7 11 (-5)); [lia|].
  left. exists 0. reflexivity.
Defined.

(** X13: for [N > 1] and exponents [>= 0], the factors the solver prints
    are the pair it returns. *)
Theorem printed_factors_returned (N e1 e2 c1 c2 p q : Z) :
  1 < N -> 0 <= e1 -> 0 <= e2 ->
  returned (solve_for_primes N e1 e2 c1 c2) = Return (Some (p, q)) ->
  In (TextZ "p = " p) (output (solve_for_primes N e1 e2 c1 c2)) /\
  In (TextZ "q = " q) (output (solve_for_primes N e1 e2 c1 c2)).
Proof.
  intros HN He1 He2.
  destruct (solve_for_primes_cases N e1 e2 c1 c2 HN He1 He2)
    as [[e E] | (x2 & x5 & _ & _ & [(_ & _ & E) | (_ & E)])];
    rewrite E; unfold returned, output; cbn [fst snd]; intros H.
  - discriminate H.
  - injection H as <- <-. unfold primary_report.
    split; [right; right; left | do 3 right; left]; reflexivity.
  - injection H as <- <-. unfold swap_report.
    split; [right; right; left | do 3 right; left]; reflexivity.
Qed.

Lemma printed_factors_returned_witness :
  In (TextZ "p = " 61) (output (solve_for_primes 3233 1 1 281 676)) /\
  In (TextZ "q = " 53) (output (solve_for_primes 3233 1 1 281 676)).
Proof.
  apply (printed_factors_returned 3233 1 1 281 676 61 53); try lia.
  vm_compute. reflexivity.
Defined.

(** ** Reading the values *)

Lemma split_once_contains (c : ascii) (s : string) :
  contains c s = true -> exists before after, split_once c s = Some (before, after).
Proof.
  induction s as [|c' s IH]; simpl; [discriminate|].
  destruct (Ascii.eqb c c'); simpl; [eauto|].
  intros H. destruct (IH H) as (b & a & E). rewrite E. eauto.
Qed.

Lemma split_once_first (c : ascii) (k v : string) :
  contains c k = false ->
  contains c (k ++ String c v) = true /\
  split_once c (k ++ String c v) = Some (k, v).
Proof.
  induction k as [|c' k IH]; simpl.
  - intros _. rewrite Ascii.eqb_refl. auto.
  - destruct (Ascii.eqb c c'); simpl; [discriminate|].
    intros H. destruct (IH H) as [-> ->]. auto.
Qed.

Section ReadValuesFacts.
Variable strip : string -> string.
Variable int : string -> option Z.

Lemma store_line_skip (values : dict) (line : string) :
  line_key strip line = None -> store_line strip int values line = values.
Proof.
  unfold line_key, store_line. cbv zeta.
  destruct (contains "=" (strip line)) eqn:C; [|reflexivity].
  destruct (split_once_contains _ _ C) as (b & a & ->). discriminate.
Qed.

Lemma store_line_other (values : dict) (line key : string) :
  line_key strip line <> Some key ->
  dict_get key (store_line strip int values line) = dict_get key values.
Proof.
  unfold line_key, store_line. cbv zeta.
  destruct (contains "=" (strip line)); [|reflexivity].
  destruct (split_once "=" (strip line)) as [[k v]|]; [|reflexivity].
  intros H. assert (key <> strip k) by congruence.
  destruct (int (strip v)); simpl;
    rewrite (proj2 (String.eqb_neq key (strip k))) by assumption; reflexivity.
Qed.

Lemma store_line_same (values : dict) (line key : string) :
  line_key strip line = Some key ->
  dict_get key (store_line strip int values line) <> PyNone.
Proof.
  unfold line_key, store_line. cbv zeta.
  destruct (contains "=" (strip line)); [|discriminate].
  destruct (split_once "=" (strip line)) as [[k v]|]; [|discriminate].
  intros H. injection H as <-.
  destruct (int (strip v)); simpl; rewrite String.eqb_refl; discriminate.
Qed.

Lemma fold_store_other (lines : list string) (key : string) :
  Forall (fun l => line_key strip l <> Some key) lines ->
  forall values,
  dict_get key (fold_left (store_line strip int) lines values) = dict_get key values.
Proof.
  induction 1 as [|l lines Hl _ IH]; intros values; simpl; [reflexivity|].
  rewrite IH. apply store_line_other. exact Hl.
Qed.

Lemma read_lines_get_none (lines : list string) (key : string) :
  dict_get key (read_lines strip int lines) = PyNone <->
  Forall (fun l => line_key strip l <> Some key) lines.
Proof.
  unfold read_lines. split.
  - induction lines as [|l lines IH] using rev_ind; intros H; [constructor|].
    rewrite fold_left_app in H. simpl in H.
    apply Forall_app.
    assert (Hl : line_key strip l <> Some key).
    { intros E. exact (store_line_same _ _ _ E H). }
    split; [|constructor; [exact Hl | constructor]].
    apply IH. rewrite store_line_other in H by exact Hl. exact H.
  - intros H. rewrite (fold_store_other lines key H). reflexivity.
Qed.
End ReadValuesFacts.

(** X14: a line that, stripped, contains no [=] changes nothing: the five
    values read are the same with and without it. *)
Theorem read_values_skips_line (strip : string -> string)
  (int : string -> option Z) (before after : list string) (line : string) :
  contains "=" (strip line) = false ->
  read_values strip int (before ++ line :: after) =
  read_values strip int (before ++ after).
Proof.
  intros H. unfold read_values, read_lines.
  rewrite !fold_left_app. simpl.
  rewrite store_line_skip; [reflexivity|].
  unfold line_key. cbv zeta. rewrite H. reflexivity.
Qed.

Lemma read_values_skips_line_witness :
  read_values ascii_strip decimal_int
    (["N = 3233"%string; "e1 = 1"%string]
       ++ "# exponents and ciphertexts"%string :: ["e2 = 1"%string]) =
  read_values ascii_strip decimal_int
    (["N = 3233"%string; "e1 = 1"%string] ++ ["e2 = 1"%string]).
Proof. apply read_values_skips_line. reflexivity. Defined.

(** X15: the last assignment of a key wins, and a line is split at its
    first [=]: if the stripped line is [k=v] with no [=] in [k] and no
    later line assigns the key [strip k], the dictionary holds for that
    key [int (strip v)], or the text [strip v] when it is not a number,
    whatever came before. *)
Theorem last_assignment_wins (strip : string -> string)
  (int : string -> option Z) (before after : list string) (line k v : string) :
  strip line = (k ++ String "=" v)%string ->
  contains "=" k = false ->
  Forall (fun l => line_key strip l <> Some (strip k)) after ->
  dict_get (strip k) (read_lines strip int (before ++ line :: after)) =
  match int (strip v) with
  | Some z => PyInt z
  | None => PyStr (strip v)
  end.
Proof.
  intros Hs Hk Hafter. unfold read_lines.
  rewrite fold_left_app. simpl.
  rewrite (fold_store_other strip int after (strip k) Hafter).
  unfold store_line. cbv zeta. rewrite Hs.
  destruct (split_once_first "=" k v Hk) as [-> ->].
  destruct (int (strip v)); simpl; rewrite String.eqb_refl; reflexivity.
Qed.

Lemma last_assignment_wins_witness :
  dict_get (ascii_strip "c2 ")
    (read_lines ascii_strip decimal_int
       (["c2 = 999"%string; "N = 3233"%string]
          ++ " c2 = 676=x "%string :: ["e1 = 1"%string])) =
  match decimal_int (ascii_strip " 676=x") with
  | Some z => PyInt z
  | None => PyStr (ascii_strip " 676=x")
  end.
Proof.
  apply (last_assignment_wins ascii_strip decimal_int).
  - reflexivity.
  - reflexivity.
  - repeat constructor. vm_compute. discriminate.
Defined.

(** X16: a key comes back as [None] exactly when no line of the file
    assigns it. *)
Theorem missing_key_none (strip : string -> string)
  (int : string -> option Z) (lines : list string) (key : string) :
  dict_get key (read_lines strip int lines) = PyNone <->
  Forall (fun l => line_key strip l <> Some key) lines.
Proof. apply read_lines_get_none. Qed.

(** ** A well-formed instance, in full *)

(** X17: on a well-formed instance (distinct primes [p], [q] coprime to 2,
    3, 5 and 7, exponents [>= 0] with [e1 * e2 < N - 1], ciphertexts built
    by the defining equations, [p] not dividing [14^(e1*e2) - 15^(e1*e2)])
    the whole run is determined: the solver prints the factors [p] and [q],
    both recomputed ciphertexts equal the given ones, so both [Match:]
    lines are [True], and [(p, q)] is returned. *)
Theorem well_formed_run (p q e1 e2 : Z) :
  Z.prime p -> Z.prime q -> p <> q ->
  coprime_to_coefficients p -> coprime_to_coefficients q ->
  0 <= e1 -> 0 <= e2 -> e1 * e2 < p * q - 1 ->
  ~ (p | (a1 * b2) ^ (e1 * e2) - (a2 * b1) ^ (e1 * e2)) ->
  let c1 := (a1 * p + b1 * q) ^ e1 mod (p * q) in
  let c2 := (a2 * p + b2 * q) ^ e2 mod (p * q) in
  solve_for_primes (p * q) e1 e2 c1 c2 =
  ([ banner; Text "Found factors:"; TextZ "p = " p; TextZ "q = " q;
     Text EmptyString; Text "Verification:";
     TextZ "Original c1: " c1; TextZ "Computed c1: " c1; TextB "Match: " true;
     TextZ "Original c2: " c2; TextZ "Computed c2: " c2; TextB "Match: " true ],
   Return (Some (p, q))).
Proof.
  intros Pp Pq Hne (Cp1 & _ & Cp2 & _) (Cq1 & _ & Cq2 & _) He1 He2 HE Hnd c1 c2.
  pose proof (Z.prime_ge_2 p Pp) as Hp.
  pose proof (Z.prime_ge_2 q Pq) as Hq.
  assert (HN : 3 < p * q) by nia.
  assert (G1 : Z.gcd a1 (p * q) = 1).
  { apply Z.coprime_mul_r; unfold Z.coprime; rewrite Z.gcd_comm; assumption. }
  assert (G2 : Z.gcd a2 (p * q) = 1).
  { apply Z.coprime_mul_r; unfold Z.coprime; rewrite Z.gcd_comm; assumption. }
  destruct (mod_inverse_coprime a1 (p * q) ltac:(unfold a1; lia) ltac:(lia) G1)
    as (x2 & H1 & _ & I2).
  destruct (mod_inverse_coprime a2 (p * q) ltac:(unfold a2; lia) ltac:(lia) G2)
    as (x5 & H2 & _ & I5).
  pose proof (primary_candidate_value (p * q) e1 e2 c1 c2 x2 x5
                ltac:(lia) He1 He2) as Hc.
  unfold c1, c2 in Hc.
  rewrite (candidate_is_q p q e1 e2 x2 x5 Pp Pq Hne He1 He2 I2 I5 HE Hnd) in Hc.
  fold c1 c2 in Hc.
  assert (Hdiv : p * q / q = p) by (apply Z.div_mul; lia).
  assert (Hm : (p * q) mod q = 0) by (apply Z.mod_mul; lia).
  assert (Hr : p * q / q * q = p * q) by (rewrite Hdiv; reflexivity).
  assert (Hnz : p * q <> 0) by lia.
  assert (Hq1 : 1 < q) by lia.
  pose proof (py_pow_nonneg (R := result)
                (a1 * (p * q / q) + b1 * q) e1 (p * q) Hnz He1) as P1.
  pose proof (py_pow_nonneg (R := result)
                (a2 * (p * q / q) + b2 * q) e2 (p * q) Hnz He2) as P2.
  rewrite (solve_accepts_candidate _ _ _ _ _ _ _ _ _ q _ _ H1 H2 Hc
             Hq1 Hm Hr P1 P2).
  rewrite Hdiv. fold c1 c2. unfold primary_report.
  rewrite !Z.eqb_refl. reflexivity.
Qed.

Lemma well_formed_run_witness :
  solve_for_primes (61 * 53) 1 1
    ((a1 * 61 + b1 * 53) ^ 1 mod (61 * 53))
    ((a2 * 61 + b2 * 53) ^ 1 mod (61 * 53)) =
  ([ banner; Text "Found factors:"; TextZ "p = " 61; TextZ "q = " 53;
     Text EmptyString; Text "Verification:";
     TextZ "Original c1: " ((a1 * 61 + b1 * 53) ^ 1 mod (61 * 53));
     TextZ "Computed c1: " ((a1 * 61 + b1 * 53) ^ 1 mod (61 * 53));
     TextB "Match: " true;
     TextZ "Original c2: " ((a2 * 61 + b2 * 53) ^ 1 mod (61 * 53));
     TextZ "Computed c2: " ((a2 * 61 + b2 * 53) ^ 1 mod (61 * 53));
     TextB "Match: " true ],
   Return (Some (61, 53))).
Proof.
  apply (well_formed_run 61 53 1 1).
  - apply prime_by_trial; [lia | reflexivity].
  - apply prime_by_trial; [lia | reflexivity].
  - lia.
  - repeat split; reflexivity.
  - repeat split; reflexivity.
  - lia.
  - lia.
  - lia.
  - intros [k Hk].
    change ((a1 * b2) ^ (1 * 1) - (a2 * b1) ^ (1 * 1)) with (-1) in Hk. lia.
Defined.

(** ** The main block *)

(** A returned pair has no zero component: its product is [N], and for
    [N = 0] nothing is returned. *)
Lemma returned_pair_nonzero (N e1 e2 c1 c2 p q : Z) (log : list line) :
  solve_for_primes N e1 e2 c1 c2 = (log, Return (Some (p, q))) ->
  p <> 0 /\ q <> 0.
Proof.
  intros H.
  pose proof (solve_for_primes_returns N e1 e2 c1 c2 log _ H p q eq_refl) as Hp.
  destruct (Z.eq_dec N 0) as [->|HN]; [|nia].
  rewrite (shared_factor_error 0 e1 e2 c1 c2) in H;
    [discriminate H | lia | left; exists 0; reflexivity].
Qed.

Section MainFacts.
Variable strip : string -> string.
Variable int : string -> option Z.
Variable open_read : string -> io (list string).
Variable solve_on_text :
  pyval -> pyval -> pyval -> pyval -> pyval -> M result Empty_set.

Lemma main_on_integers (argv : list string) (lines : list string)
  (N e1 e2 c1 c2 : Z) :
  open_read (argument_filename argv) = Done lines ->
  read_values strip int lines = (PyInt N, PyInt e1, PyInt e2, PyInt c1, PyInt c2) ->
  main strip int open_read solve_on_text argv =
  let reading :=
    Line (Text ("Reading values from file: " ++ argument_filename argv)) in
  match solve_for_primes N e1 e2 c1 c2 with
  | (log, Return (Some (p, q))) =>
      if negb (p =? 0) && negb (q =? 0)
      then (reading :: map Line log ++ [Answer p q], 0)
      else (reading :: map Line log, 0)
  | (log, Return None) => (reading :: map Line log, 0)
  | (log, Raise e) =>
      (reading :: map Line log ++ [Line (TextExn "Error: " e)], 1)
  | (log, Normal v) => match v with end
  end.
Proof.
  intros Ho Hr. unfold main, read_values_from_file.
  rewrite Ho, Hr. reflexivity.
Qed.
End MainFacts.

(** X18: when one of the five keys is assigned by no line of the file, the
    main block prints the missing-values error and exits with code 1; the
    solver is not run. *)
Theorem main_missing_key (strip : string -> string) (int : string -> option Z)
  (open_read : string -> io (list string))
  (solve_on_text : pyval -> pyval -> pyval -> pyval -> pyval -> M result Empty_set)
  (argv lines : list string) (key : string) :
  open_read (argument_filename argv) = Done lines ->
  In key ["N"; "e1"; "e2"; "c1"; "c2"]%string ->
  Forall (fun l => line_key strip l <> Some key) lines ->
  main strip int open_read solve_on_text argv =
  ([ Line (Text ("Reading values from file: " ++ argument_filename argv));
     Line (Text "Error: Missing values in the file. Make sure the file contains N, e1, e2, c1, and c2.") ],
   1).
Proof.
  intros Ho Hk Hnone.
  apply (read_lines_get_none strip int) in Hnone.
  unfold main, read_values_from_file. rewrite Ho. unfold read_values.
  cbv zeta.
  assert (Hn : has_none
                 [dict_get "N" (read_lines strip int lines);
                  dict_get "e1" (read_lines strip int lines);
                  dict_get "e2" (read_lines strip int lines);
                  dict_get "c1" (read_lines strip int lines);
                  dict_get "c2" (read_lines strip int lines)] = true).
  { unfold has_none. apply existsb_exists. exists PyNone. split; [|reflexivity].
    rewrite <- Hnone. simpl in Hk. simpl.
    destruct Hk as [<- | [<- | [<- | [<- | [<- | []]]]]]; auto 6. }
  rewrite Hn. reflexivity.
Qed.

Lemma main_missing_key_witness :
  main ascii_strip decimal_int
    (one_file "data.txt" ["N = 3233"%string; "e1 = 1"%string; "c1 = 281"%string])
    (fun _ _ _ _ _ => raise ValueError) ["second_challenge.py"%string] =
  ([ Line (Text ("Reading values from file: "
                 ++ argument_filename ["second_challenge.py"%string]));
     Line (Text "Error: Missing values in the file. Make sure the file contains N, e1, e2, c1, and c2.") ],
   1).
Proof.
  apply (main_missing_key ascii_strip decimal_int _ _ _
           ["N = 3233"%string; "e1 = 1"%string; "c1 = 281"%string] "e2"%string).
  - reflexivity.
  - simpl. auto.
  - repeat constructor; vm_compute; discriminate.
Defined.

(** X19: when the file gives five integers and [solve_for_primes] returns a
    pair for them, the main block prints everything the solver printed,
    then the answer line with that pair, and exits with code 0: the test
    [if p and q] never hides a returned pair. *)
Theorem main_prints_answer (strip : string -> string) (int : string -> option Z)
  (open_read : string -> io (list string))
  (solve_on_text : pyval -> pyval -> pyval -> pyval -> pyval -> M result Empty_set)
  (argv lines : list string) (N e1 e2 c1 c2 p q : Z) (log : list line) :
  open_read (argument_filename argv) = Done lines ->
  read_values strip int lines = (PyInt N, PyInt e1, PyInt e2, PyInt c1, PyInt c2) ->
  solve_for_primes N e1 e2 c1 c2 = (log, Return (Some (p, q))) ->
  main strip int open_read solve_on_text argv =
  (Line (Text ("Reading values from file: " ++ argument_filename argv))
     :: map Line log ++ [Answer p q],
   0).
Proof.
  intros Ho Hr Hs.
  rewrite (main_on_integers strip int open_read solve_on_text argv lines
             N e1 e2 c1 c2 Ho Hr).
  cbv zeta. rewrite Hs.
  destruct (returned_pair_nonzero N e1 e2 c1 c2 p q log Hs) as [Hp Hq].
  apply Z.eqb_neq in Hp, Hq. rewrite Hp, Hq. reflexivity.
Qed.

Lemma main_prints_answer_witness :
  main ascii_strip decimal_int
    (one_file "data.txt"
       ["N = 3233"%string; "e1 = 1"%string; "e2 = 1"%string;
        "c1 = 281"%string; "c2 = 676"%string])
    (fun _ _ _ _ _ => raise ValueError) ["second_challenge.py"%string] =
  (Line (Text ("Reading values from file: "
               ++ argument_filename ["second_challenge.py"%string]))
     :: map Line (banner :: primary_report 281 676 61 53 281 676)
     ++ [Answer 61 53],
   0).
Proof.
  apply (main_prints_answer ascii_strip decimal_int _ _ _
           ["N = 3233"%string; "e1 = 1"%string; "e2 = 1"%string;
            "c1 = 281"%string; "c2 = 676"%string] 3233 1 1 281 676);
    vm_compute; reflexivity.
Defined.

(** X20: when the file gives five integers, the exit code tells only
    whether the solver raised: a solver that returns [(None, None)] leaves
    the main block with exit code 0 and no answer line, and an exception of
    the solver is printed after the solver's own lines, with exit code 1. *)
Theorem main_exit_code (strip : string -> string) (int : string -> option Z)
  (open_read : string -> io (list string))
  (solve_on_text : pyval -> pyval -> pyval -> pyval -> pyval -> M result Empty_set)
  (argv lines : list string) (N e1 e2 c1 c2 : Z) :
  open_read (argument_filename argv) = Done lines ->
  read_values strip int lines = (PyInt N, PyInt e1, PyInt e2, PyInt c1, PyInt c2) ->
  (forall log,
      solve_for_primes N e1 e2 c1 c2 = (log, Return None) ->
      main strip int open_read solve_on_text argv =
      (Line (Text ("Reading values from file: " ++ argument_filename argv))
         :: map Line log, 0)) /\
  (forall log e,
      solve_for_primes N e1 e2 c1 c2 = (log, Raise e) ->
      main strip int open_read solve_on_text argv =
      (Line (Text ("Reading values from file: " ++ argument_filename argv))
         :: map Line log ++ [Line (TextExn "Error: " e)], 1)).
Proof.
  intros Ho Hr.
  rewrite (main_on_integers strip int open_read solve_on_text argv lines
             N e1 e2 c1 c2 Ho Hr).
  cbv zeta. split; [intros log Hs | intros log e Hs]; rewrite Hs; reflexivity.
Qed.

Lemma main_exit_code_witness :
  (forall log,
      solve_for_primes 1 1 1 0 0 = (log, Return None) ->
      main ascii_strip decimal_int
        (one_file "data.txt"
           ["N = 1"%string; "e1 = 1"%string; "e2 = 1"%string;
            "c1 = 0"%string; "c2 = 0"%string])
        (fun _ _ _ _ _ => raise ValueError) ["second_challenge.py"%string] =
      (Line (Text ("Reading values from file: "
                   ++ argument_filename ["second_challenge.py"%string]))
         :: map Line log, 0)) /\
  (forall log e,
      solve_for_primes 1 1 1 0 0 = (log, Raise e) ->
      main ascii_strip decimal_int
        (one_file "data.txt"
           ["N = 1"%string; "e1 = 1"%string; "e2 = 1"%string;
            "c1 = 0"%string; "c2 = 0"%string])
        (fun _ _ _ _ _ => raise ValueError) ["second_challenge.py"%string] =
      (Line (Text ("Reading values from file: "
                   ++ argument_filename ["second_challenge.py"%string]))
         :: map Line log ++ [Line (TextExn "Error: " e)], 1)).
Proof.
  apply (main_exit_code ascii_strip decimal_int _ _ _
           ["N = 1"%string; "e1 = 1"%string; "e2 = 1"%string;
            "c1 = 0"%string; "c2 = 0"%string] 1 1 1 0 0);
    vm_compute; reflexivity.
Defined.
